(** * Directory scanners of the repository: search_script.py and search_deep.py

    A shallow embedding of the two Python scripts: Python [str] values are
    lists of code points, the directory tree is an inductive value, [os.walk]
    is a recursive function that hands every directory to the caller's loop
    body, and the effects of a scan (directories listed, files opened, lines
    printed) are recorded in an explicit state. *)

From Stdlib Require Import List Bool Arith NArith Lia String Ascii.
From Stdlib.Strings Require Import Byte.
Import ListNotations.

Set Implicit Arguments.

(** ** Python strings *)

Module Py.

(** A Python 3 [str]: a sequence of Unicode code points. *)
Definition str := list N.

(** A [str] literal of the source whose characters are all ASCII. *)
Definition lit (s : string) : str :=
  map N_of_ascii (list_ascii_of_string s).

Definition str_eqb (a b : str) : bool :=
  if list_eq_dec N.eq_dec a b then true else false.

(** [x in l] for a list of strings. *)
Definition mem (x : str) (l : list str) : bool := existsb (str_eqb x) l.

(** [s.startswith(p)]. *)
Fixpoint startswith (p s : str) : bool :=
  match p, s with
  | [], _ => true
  | _ :: _, [] => false
  | a :: p', b :: s' => N.eqb a b && startswith p' s'
  end.

(** [needle in hay] for two strings: literal substring containment. *)
Fixpoint contains (needle hay : str) : bool :=
  startswith needle hay ||
  match hay with
  | [] => false
  | _ :: hay' => contains needle hay'
  end.

(** Number of positions of [hay] at which [needle] starts. *)
Fixpoint occurrences (needle hay : str) : nat :=
  (if startswith needle hay then 1 else 0) +
  match hay with
  | [] => 0
  | _ :: hay' => occurrences needle hay'
  end.

(** [s.endswith(p)]. *)
Definition endswith (p s : str) : bool := startswith (rev p) (rev s).

(** [s.endswith((p1, ..., pn))]: a tuple of suffixes. *)
Definition endswith_any (ps : list str) (s : str) : bool :=
  existsb (fun p => endswith p s) ps.

(** Line boundaries of [str.splitlines]: LF, VT, FF, CR, FS, GS, RS, NEL,
    LINE SEPARATOR and PARAGRAPH SEPARATOR (CR LF counts as one). *)
Definition is_linebreak (c : N) : bool :=
  existsb (N.eqb c) [10; 11; 12; 13; 28; 29; 30; 133; 8232; 8233]%N.

(** [s.splitlines()], with [cur] the reversed line read so far. *)
Fixpoint splitlines_from (cur : str) (s : str) : list str :=
  match s with
  | [] => match cur with [] => [] | _ => [rev cur] end
  | c :: s' =>
      if N.eqb c 13 then
        match s' with
        | 10%N :: s'' => rev cur :: splitlines_from [] s''
        | _ => rev cur :: splitlines_from [] s'
        end
      else if is_linebreak c then rev cur :: splitlines_from [] s'
      else splitlines_from (c :: cur) s'
  end.

Definition splitlines (s : str) : list str := splitlines_from [] s.

(** [c.isspace()] as used by [str.strip()] without argument. *)
Definition isspace (c : N) : bool :=
  ((9 <=? c) && (c <=? 13) || (28 <=? c) && (c <=? 32) ||
   existsb (N.eqb c) [133; 160; 5760; 8232; 8233; 8239; 8287; 12288] ||
   (8192 <=? c) && (c <=? 8202))%N.

Fixpoint lstrip (s : str) : str :=
  match s with
  | c :: s' => if isspace c then lstrip s' else s
  | [] => []
  end.

Definition strip (s : str) : str := rev (lstrip (rev (lstrip s))).

(** [enumerate(l)], counting from [i]. *)
Fixpoint enumerate_from {A} (i : nat) (l : list A) : list (nat * A) :=
  match l with
  | [] => []
  | x :: l' => (i, x) :: enumerate_from (S i) l'
  end.

(** [list.remove(x)]: drops the first occurrence; [None] stands for the
    [ValueError] raised when there is none. *)
Fixpoint list_remove (x : str) (l : list str) : option (list str) :=
  match l with
  | [] => None
  | y :: l' =>
      if str_eqb x y then Some l'
      else option_map (cons y) (list_remove x l')
  end.

(** [os.path.join(a, b)] of posixpath. *)
Definition slash : N := 47.

Definition path_join (a b : str) : str :=
  if startswith [slash] b then b
  else match a with
       | [] => b
       | _ => if endswith [slash] a then a ++ b else a ++ slash :: b
       end.

End Py.

(** ** Text files: [open(path, 'r', encoding='utf-8', errors=...)] and [read()] *)

Module Codec.
Import Py.

(** The [errors] argument of [open]: the default ['strict'], or ['ignore']. *)
Inductive errors := Strict | Ignore.

(** What a byte means at the start of a UTF-8 sequence. *)
Inductive lead :=
| Single (cp : N)
| Multi (rest : nat) (lo hi : N) (acc : N)
| BadStart.

(** Well-formed UTF-8: first byte, then the range allowed for the second
    byte; [rest] counts the continuation bytes after the second one. *)
Definition classify (b : N) : lead :=
  (if b <=? 0x7F then Single b
   else if (0xC2 <=? b) && (b <=? 0xDF) then Multi 0 0x80 0xBF (N.land b 0x1F)
   else if b =? 0xE0 then Multi 1 0xA0 0xBF (N.land b 0x0F)
   else if b =? 0xED then Multi 1 0x80 0x9F (N.land b 0x0F)
   else if (0xE1 <=? b) && (b <=? 0xEF) then Multi 1 0x80 0xBF (N.land b 0x0F)
   else if b =? 0xF0 then Multi 2 0x90 0xBF (N.land b 0x07)
   else if (0xF1 <=? b) && (b <=? 0xF3) then Multi 2 0x80 0xBF (N.land b 0x07)
   else if b =? 0xF4 then Multi 2 0x80 0x8F (N.land b 0x07)
   else BadStart)%N.

(** The decoder, one byte at a time. [pending] holds an unfinished sequence.
    Under [Strict] the first ill-formed byte raises [UnicodeDecodeError]
    ([None]); under [Ignore] the ill-formed bytes are dropped and decoding
    resumes at the byte that broke the sequence. *)
Fixpoint decode_from (mode : errors) (pending : option (nat * N * N * N))
    (bs : list N) : option str :=
  match bs with
  | [] =>
      match pending, mode with
      | None, _ => Some []
      | Some _, Strict => None
      | Some _, Ignore => Some []
      end
  | b :: bs' =>
      let fresh :=
        match classify b with
        | Single cp => option_map (cons cp) (decode_from mode None bs')
        | Multi rest lo hi acc => decode_from mode (Some (rest, lo, hi, acc)) bs'
        | BadStart =>
            match mode with
            | Strict => None
            | Ignore => decode_from mode None bs'
            end
        end in
      match pending with
      | None => fresh
      | Some (rest, lo, hi, acc) =>
          if ((lo <=? b) && (b <=? hi))%N then
            let acc' := N.lor (N.shiftl acc 6) (N.land b 0x3F) in
            match rest with
            | O => option_map (cons acc') (decode_from mode None bs')
            | S rest' => decode_from mode (Some (rest', 0x80, 0xBF, acc')%N) bs'
            end
          else
            match mode with
            | Strict => None
            | Ignore => fresh
            end
      end
  end.

Definition utf8_decode (mode : errors) (bs : list byte) : option str :=
  decode_from mode None (map Byte.to_N bs).

(** Text mode with the default [newline=None]: CR LF and CR read as LF. *)
Fixpoint universal_newlines (s : str) : str :=
  match s with
  | [] => []
  | c :: s' =>
      if N.eqb c 13 then
        10%N :: match s' with
                | 10%N :: s'' => universal_newlines s''
                | _ => universal_newlines s'
                end
      else c :: universal_newlines s'
  end.

End Codec.

(** ** The directory tree and [os.walk] *)

Module Os.
Import Py Codec.

(** The exceptions that occur in the two scripts. *)
Inductive exn :=
| OSError
| UnicodeDecodeError
| ValueError
| NameError
| IndentationError (line : nat).

(** A regular file: whether [open] and [read] succeed on it (permissions,
    a file deleted under the scan, an I/O error), and its bytes. *)
Record file := { readable : bool; data : list byte }.

#[local] Unset Elimination Schemes.

(** A directory entry. [Opaque] is an entry that [os.walk] reports among
    [dirs] and does not traverse: a symbolic link to a directory
    ([followlinks] is false) or a directory whose listing fails ([onerror]
    is [None]). The order of [entries] is the order of [os.scandir]. *)
Inductive node :=
| File (f : file)
| Opaque
| Dir (entries : list (str * node)).

#[local] Set Elimination Schemes.

Definition is_file (n : node) : bool :=
  match n with File _ => true | _ => false end.

(** The [files] and [dirs] lists that [os.walk] yields for a directory. *)
Definition filenames (es : list (str * node)) : list str :=
  map fst (filter (fun e => is_file (snd e)) es).

Definition dirnames (es : list (str * node)) : list str :=
  map fst (filter (fun e => negb (is_file (snd e))) es).

(** Resolving a name in a directory. *)
Fixpoint lookup (es : list (str * node)) (name : str) : option node :=
  match es with
  | [] => None
  | (n, t) :: es' => if str_eqb name n then Some t else lookup es' name
  end.

(** Resolving a chain of names below a node. *)
Fixpoint locate (t : node) (chain : list str) : option node :=
  match chain with
  | [] => Some t
  | c :: chain' =>
      match t with
      | Dir es =>
          (fix find (l : list (str * node)) : option node :=
             match l with
             | [] => None
             | (n, t') :: l' => if str_eqb c n then locate t' chain' else find l'
             end) es
      | _ => None
      end
  end.

(** [with open(path, 'r', encoding='utf-8', errors=mode) as f: f.read()] on
    what [path] resolves to. *)
Definition open_read (mode : errors) (target : option node) : exn + str :=
  match target with
  | Some (File f) =>
      if readable f then
        match utf8_decode mode (data f) with
        | Some s => inr (universal_newlines s)
        | None => inl UnicodeDecodeError
        end
      else inl OSError
  | _ => inl OSError
  end.

(** What a scan does to its environment, in order. *)
Inductive event :=
| Scandir (top : str)
| Open (path : str) (result : exn + str).

(** The lines the scripts print, one constructor per format string. *)
Inductive output :=
| Say (text : str)
| SearchingFor (terms : list str)
| FoundIn (path : str)
| CouldNotRead (path : str) (e : exn)
| MatchIn (term path : str)
| LineHit (number : nat) (preview : str)
| ErrorReading (path : str) (e : exn).

Record world := { events : list event; stdout : list output }.

Definition log (e : event) (w : world) : world :=
  {| events := events w ++ [e]; stdout := stdout w |}.

Definition print (o : output) (w : world) : world :=
  {| events := events w; stdout := stdout w ++ [o] |}.

Definition start : world := {| events := []; stdout := [] |}.

(** A computation returns a value or raises, in a world. *)
Inductive res (A : Type) :=
| Ok (a : A) (w : world)
| Raise (e : exn) (w : world).
Arguments Raise {A} e w.

(** [for root, dirs, files in os.walk(top): body]. The body receives the
    three values and may replace [dirs]; the walk then descends, by name,
    into the directories that are left. A [top] that cannot be listed yields
    nothing. [a] is the state of the caller's variables. *)
Fixpoint walk {A : Type}
    (body : str -> list str -> list str -> (str -> option node) ->
            A -> world -> res (list str * A))
    (top : str) (t : node) (a : A) (w : world) {struct t} : res A :=
  match t with
  | Dir es =>
      match body top (dirnames es) (filenames es) (lookup es) a
                 (log (Scandir top) w) with
      | Raise e w' => Raise e w'
      | Ok (dirs, a1) w1 =>
          (fix descend (ds : list str) (a : A) (w : world) : res A :=
             match ds with
             | [] => Ok a w
             | d :: ds' =>
                 match
                   (fix find (l : list (str * node)) : res A :=
                      match l with
                      | [] => Ok a w
                      | (n, t') :: l' =>
                          if str_eqb d n then walk body (path_join top d) t' a w
                          else find l'
                      end) es
                 with
                 | Ok a' w' => descend ds' a' w'
                 | Raise e w' => Raise e w'
                 end
             end) dirs a1 w1
      end
  | _ => Ok a w
  end.

(** How a module run ends: exit status 0, or an uncaught exception (a
    traceback and exit status 1). *)
Inductive outcome :=
| Exit0 (w : world)
| Uncaught (e : exn) (w : world).

(** The block structure of a source file: its logical lines (blank and
    comment-only lines left out), each with its line number, the width of
    its indentation, and whether it ends in a colon and opens a suite. *)
Record lline := { lineno : nat; indent : nat; opens : bool }.

Fixpoint unwind (col : nat) (stack : list nat) : list nat :=
  match stack with
  | top :: stack' => if col <? top then unwind col stack' else stack
  | [] => []
  end.

(** The indentation rules of the Python tokenizer and grammar: a deeper
    line is allowed exactly after a line that opens a suite, such a line
    must be followed by a deeper one, and a shallower line must return to
    an enclosing level. [last] is the number of the previous logical line.
    The result is the line at which [IndentationError] is raised, if any. *)
Fixpoint check_layout (stack : list nat) (after_colon : bool) (last : nat)
    (ls : list lline) : option nat :=
  match ls with
  | [] => if after_colon then Some (S last) else None
  | l :: ls' =>
      let top := hd 0 stack in
      if top <? indent l then
        if after_colon
        then check_layout (indent l :: stack) (opens l) (lineno l) ls'
        else Some (lineno l)
      else if after_colon then Some (lineno l)
      else
        let stack' := unwind (indent l) stack in
        if hd 0 stack' =? indent l
        then check_layout stack' (opens l) (lineno l) ls'
        else Some (lineno l)
  end.

(** Running a module: the file is compiled first, and a layout error is
    raised before any statement runs. *)
Definition run_module (layout : list lline) (body : world -> outcome)
    (w : world) : outcome :=
  match check_layout [0] false 0 layout with
  | Some line => Uncaught (IndentationError line) w
  | None => body w
  end.

End Os.

(** ** search_script.py *)

Module Script.
Import Py Codec Os.

(** The suffixes of line 12. *)
Definition source_exts : list str :=
  [lit ".ts"; lit ".tsx"; lit ".js"; lit ".jsx"].

(** Line 12: [file.endswith(('.ts', '.tsx', '.js', '.jsx'))]. *)
Definition admits (file : str) : bool := endswith_any source_exts file.

(** Lines 6 to 9: the two guarded [dirs.remove] calls. *)
Definition ignored : list str := [lit "node_modules"; lit ".next"].

Definition remove_if_present (x : str) (dirs : list str) : option (list str) :=
  if mem x dirs then list_remove x dirs else Some dirs.

Definition prune (dirs : list str) : option (list str) :=
  match remove_if_present (lit "node_modules") dirs with
  | Some dirs1 => remove_if_present (lit ".next") dirs1
  | None => None
  end.

(** Lines 12 to 20, for one [file] of the directory [root]: the admission
    test, then the [try] block with its handler. [st] is the local list
    [matches] and the world. *)
Definition file_step (term root : str) (resolve : str -> option node)
    (st : list str * world) (file : str) : list str * world :=
  let (matches, w) := st in
  if admits file then
    let path := path_join root file in
    let r := open_read Strict (resolve file) in
    let w1 := log (Open path r) w in
    match r with
    | inr content =>
        if contains term content then (matches ++ [path], w1)
        else (matches, w1)
    | inl e => (matches, print (CouldNotRead path e) w1)
    end
  else (matches, w).

(** Lines 6 to 20: the body of the [os.walk] loop. *)
Definition dir_body (term root : str) (dirs files : list str)
    (resolve : str -> option node) (matches : list str) (w : world)
    : res (list str * list str) :=
  match prune dirs with
  | None => Raise ValueError w
  | Some dirs' =>
      let (matches', w') :=
        fold_left (file_step term root resolve) files (matches, w) in
      Ok (dirs', matches') w'
  end.

(** Lines 3 to 21. [fs] is the node that [directory] names. *)
Definition search_files (directory : str) (fs : node) (term : str)
    (w : world) : res (list str) :=
  walk (dir_body term) directory fs [] w.

Definition report (results : list str) (w : world) : world :=
  fold_left (fun w r => print (FoundIn r) w) results w.

(** Lines 23 to 31, with [fs] the current directory. *)
Definition body (fs : node) (w : world) : outcome :=
  let w := print (Say (lit "Searching for 'next/document'...")) w in
  match search_files (lit ".") fs (lit "next/document") w with
  | Raise e w => Uncaught e w
  | Ok results w =>
      let w := report results w in
      let w := print (Say (10%N :: lit "Searching for '<Html'...")) w in
      match search_files (lit ".") fs (lit "<Html") w with
      | Raise e w => Uncaught e w
      | Ok results_html w => Exit0 (report results_html w)
      end
  end.

Definition L (n i : nat) (colon : bool) : lline :=
  {| lineno := n; indent := i; opens := colon |}.

(** The logical lines of search_script.py. *)
Definition layout : list lline :=
  [ L 1 0 false; L 3 0 true; L 4 4 false; L 5 4 true; L 6 8 true;
    L 7 12 false; L 8 8 true; L 9 12 false; L 11 8 true; L 12 12 true;
    L 13 16 false; L 14 16 true; L 15 20 true; L 16 24 false; L 17 24 true;
    L 18 28 false; L 19 16 true; L 20 20 false; L 21 4 false;
    L 23 0 false; L 24 0 false; L 25 0 true; L 26 4 false;
    L 28 0 false; L 29 0 false; L 30 0 true; L 31 4 false ].

Definition main (fs : node) (w : world) : outcome :=
  run_module layout (body fs) w.

End Script.

(** ** search_deep.py *)

Module Deep.
Import Py Codec Os.

Definition dquote : N := 34.
Definition squote : N := 39.

(** Lines 3 to 5. *)
Definition search_terms : list str :=
  [ lit "next/document"; lit "<Html"; lit "Html ";
    lit "from " ++ dquote :: lit "next/document" ++ [dquote];
    lit "from " ++ squote :: lit "next/document" ++ [squote] ].

Definition ignore_dirs : list str :=
  [lit "node_modules"; lit ".next"; lit ".git"; lit ".vscode"].

Definition ignore_exts : list str :=
  [ lit ".png"; lit ".jpg"; lit ".jpeg"; lit ".gif"; lit ".ico"; lit ".svg";
    lit ".woff"; lit ".woff2"; lit ".ttf"; lit ".eot"; lit ".mp4";
    lit ".webm"; lit ".map" ].

(** Line 11: [dirs[:] = [d for d in dirs if d not in ignore_dirs]]. *)
Definition prune (dirs : list str) : list str :=
  filter (fun d => negb (mem d ignore_dirs)) dirs.

(** Line 14 tests [not file.endswith(('.ts', '.tsx', '.js', '.jsx'))] and
    line 15 skips the file; a file goes on when this holds. *)
Definition admits (file : str) : bool :=
  endswith_any [lit ".ts"; lit ".tsx"; lit ".js"; lit ".jsx"] file.

(** Line 27: [line.strip()[:100]]. *)
Definition preview (line : str) : str := firstn 100 (strip line).

(** Lines 25 to 27. *)
Definition line_hits (term : str) (lines : list str) : list output :=
  flat_map (fun il => if contains term (snd il)
                      then [LineHit (S (fst il)) (preview (snd il))]
                      else [])
           (enumerate_from 0 lines).

(** Lines 22 to 27, for one [term]. *)
Definition term_block (path content term : str) : list output :=
  if contains term content
  then MatchIn term path :: line_hits term (splitlines content)
  else [].

(** Lines 17 to 29, for one [file] of the directory [root]. *)
Definition file_block (root file : str) (resolve : str -> option node)
    (w : world) : world :=
  let path := path_join root file in
  let r := open_read Ignore (resolve file) in
  let w1 := log (Open path r) w in
  match r with
  | inr content =>
      fold_left (fun w o => print o w)
                (flat_map (term_block path content) search_terms) w1
  | inl e => print (ErrorReading path e) w1
  end.

(** Lines 11 to 29: the body of the [os.walk] loop. Line 14 reads the name
    [file]; [binding] is its value in the module namespace at that point,
    and reading an unbound name raises [NameError]. *)
Definition dir_body (binding : option str) (root : str)
    (dirs files : list str) (resolve : str -> option node)
    (a : unit) (w : world) : res (list str * unit) :=
  let dirs' := prune dirs in
  match binding with
  | None => Raise NameError w
  | Some file =>
      if admits file then Ok (dirs', a) (file_block root file resolve w)
      else Ok (dirs', a) w
  end.

(** Lines 7 to 29. No statement of the module assigns [file]. *)
Definition body (fs : node) (w : world) : outcome :=
  let w := print (SearchingFor search_terms) w in
  match walk (dir_body None) (lit ".") fs tt w with
  | Ok _ w => Exit0 w
  | Raise e w => Uncaught e w
  end.

Definition L (n i : nat) (colon : bool) : lline :=
  {| lineno := n; indent := i; opens := colon |}.

(** The logical lines of search_deep.py: line 11 has width 4 and does not
    open a suite, line 12 is blank, line 13 is a comment, line 14 has
    width 8. *)
Definition layout : list lline :=
  [ L 1 0 false; L 3 0 false; L 4 0 false; L 5 0 false; L 7 0 false;
    L 9 0 true; L 11 4 false; L 14 8 true; L 15 12 false; L 17 8 false;
    L 18 8 true; L 19 12 true; L 20 16 false; L 21 16 true; L 22 20 true;
    L 23 24 false; L 24 24 false; L 25 24 true; L 26 28 true; L 27 32 false;
    L 28 8 true; L 29 12 false ].

Definition main (fs : node) (w : world) : outcome :=
  run_module layout (body fs) w.

End Deep.

(** ** The trees the claims range over, and the plan of a scan *)

Module Tree.
Import Py Codec Os.

(** A name as [os.scandir] returns it: not empty, no separator. *)
Definition name_ok (n : str) : bool :=
  match n with
  | [] => false
  | _ => negb (existsb (N.eqb slash) n)
  end.

Fixpoint distinct (l : list str) : bool :=
  match l with
  | [] => true
  | x :: l' => negb (mem x l') && distinct l'
  end.

(** A tree a file system can hold: in every directory the names are
    proper and pairwise different. *)
Fixpoint wf (t : node) : bool :=
  match t with
  | Dir es =>
      distinct (map fst es) && forallb name_ok (map fst es) &&
      (fix all (l : list (str * node)) : bool :=
         match l with
         | [] => true
         | (_, t') :: l' => wf t' && all l'
         end) es
  | _ => true
  end.

(** The path that the scan builds for a chain of names below [top]. *)
Definition joins (top : str) (chain : list str) : str :=
  fold_left path_join chain top.

(** One step of a scan, by the chain of names it concerns: a directory
    listed, or a file handed to [open] together with what its path
    resolves to. *)
Inductive item :=
| Listed (chain : list str)
| Opened (chain : list str) (target : option node).

Definition chain_of (i : item) : list str :=
  match i with Listed c => c | Opened c _ => c end.

Definition below (d : str) (i : item) : item :=
  match i with
  | Listed c => Listed (d :: c)
  | Opened c n => Opened (d :: c) n
  end.

(** The steps of a walk whose body keeps [pr dirs] of every [dirs] and
    opens the files that [accept] accepts, in the order of the walk. *)
Fixpoint plan (pr : list str -> list str) (accept : str -> bool)
    (t : node) : list item :=
  match t with
  | Dir es =>
      Listed [] ::
      map (fun f => Opened [f] (lookup es f)) (filter accept (filenames es)) ++
      flat_map
        (fun d =>
           (fix find (l : list (str * node)) : list item :=
              match l with
              | [] => []
              | (n, t') :: l' =>
                  if str_eqb d n then map (below d) (plan pr accept t')
                  else find l'
              end) es)
        (pr (dirnames es))
  | _ => []
  end.

(** The event of a step, for a scan rooted at [top]. *)
Definition render (mode : errors) (top : str) (i : item) : event :=
  match i with
  | Listed c => Scandir (joins top c)
  | Opened c n => Open (joins top c) (open_read mode n)
  end.

Definition path_of (e : event) : str :=
  match e with Scandir p => p | Open p _ => p end.

(** The paths handed to [open], in order. *)
Definition opened (evs : list event) : list str :=
  flat_map (fun e => match e with Open p _ => [p] | _ => [] end) evs.

(** The tree without the entry that [chain] names. *)
Fixpoint remove_at (t : node) (chain : list str) : node :=
  match chain, t with
  | c :: chain', Dir es =>
      Dir ((fix edit (l : list (str * node)) : list (str * node) :=
              match l with
              | [] => []
              | (n, t') :: l' =>
                  if str_eqb c n then
                    match chain' with
                    | [] => l'
                    | _ => (n, remove_at t' chain') :: l'
                    end
                  else (n, t') :: edit l'
              end) es)
  | _, _ => t
  end.

(** The bytes of an ASCII literal. *)
Definition bytes_of (s : str) : list byte :=
  map (fun c => match Byte.of_N c with Some b => b | None => x00 end) s.

End Tree.

(** ** Vocabulary of the claims *)

Module Claims.
Import Py Codec Os Tree.

(** The descent of [walk] into the directories left in [dirs], with [go]
    the walk of one of them. *)
Fixpoint descend {A : Type} (go : str -> node -> A -> world -> res A)
    (es : list (str * node)) (ds : list str) (a : A) (w : world) : res A :=
  match ds with
  | [] => Ok a w
  | d :: ds' =>
      match match lookup es d with
            | Some t' => go d t' a w
            | None => Ok a w
            end
      with
      | Ok a' w' => descend go es ds' a' w'
      | Raise e w' => Raise e w'
      end
  end.

(** The separator that [path_join] puts after [a], and the text that a
    chain of names adds to a path already ending in a name. *)
Definition sep (a : str) : str :=
  match a with
  | [] => []
  | _ => if endswith [slash] a then [] else [slash]
  end.

Definition tail_of (chain : list str) : str :=
  flat_map (fun c => slash :: c) chain.

(** The chains of the files a plan opens. *)
Definition opened_chains (p : list item) : list (list str) :=
  flat_map (fun i => match i with Opened c _ => [c] | _ => [] end) p.

(** The entries of a directory after [remove_at] at [c :: rest]. *)
Fixpoint edit_entries (c : str) (rest : list str) (l : list (str * node))
    : list (str * node) :=
  match l with
  | [] => []
  | (n, t') :: l' =>
      if str_eqb c n then
        match rest with
        | [] => l'
        | _ => (n, remove_at t' rest) :: l'
        end
      else (n, t') :: edit_entries c rest l'
  end.

(** What search_files does to [dirs], as a total function: the first
    occurrence of each of the two names is dropped. *)
Fixpoint drop_first (x : str) (l : list str) : list str :=
  match l with
  | [] => []
  | y :: l' => if str_eqb x y then l' else y :: drop_first x l'
  end.

Definition script_pr (dirs : list str) : list str :=
  drop_first (lit ".next") (drop_first (lit "node_modules") dirs).

(** The steps and events of [search_files directory] on [fs]. *)
Definition script_plan (fs : node) : list item :=
  plan script_pr Script.admits fs.

Definition script_events (directory : str) (fs : node) : list event :=
  map (render Strict directory) (script_plan fs).

(** The paths that a scan for [term] appends to [matches]. *)
Definition hits (term : str) (evs : list event) : list str :=
  flat_map (fun e => match e with
                     | Open p (inr content) =>
                         if contains term content then [p] else []
                     | _ => []
                     end) evs.

(** The paths that a scan of [t] rooted at [top] finds for [term]. *)
Definition found (term top : str) (t : node) : list str :=
  hits term (map (render Strict top) (plan script_pr Script.admits t)).

(** The lines that the handler of line 20 prints. *)
Definition complaints (evs : list event) : list output :=
  flat_map (fun e => match e with
                     | Open p (inl e) => [CouldNotRead p e]
                     | _ => []
                     end) evs.

Definition extend (w : world) (evs : list event) (out : list output) : world :=
  {| events := events w ++ evs; stdout := stdout w ++ out |}.

Definition str_dec : forall a b : str, {a = b} + {a <> b} :=
  list_eq_dec N.eq_dec.

(** Occurrences of [term] counted line by line. *)
Definition line_total (term : str) (lines : list str) : nat :=
  list_sum (map (occurrences term) lines).

(** A chain that stays clear of the directory names a script ignores. *)
Definition clear_of (ignored : list str) (dirs : list str) : bool :=
  forallb (fun d => negb (mem d ignored)) dirs.

(** The two kinds of match record among the printed lines. *)
Definition is_file_level (o : output) : bool :=
  match o with FoundIn _ | MatchIn _ _ => true | _ => false end.

Definition is_line_level (o : output) : bool :=
  match o with LineHit _ _ => true | _ => false end.

Definition line_number (o : output) : option nat :=
  match o with LineHit n _ => Some n | _ => None end.

(** The sentence of the specification on a file that holds the term once:
    the records of the scan are one file-level match and one line-level
    match, the latter with line number [L]. *)
Definition one_of_each (records : list output) (L : nat) : Prop :=
  List.length (filter is_file_level records) = 1 /\
  map line_number (filter is_line_level records) = [Some L].

(** The file that a chain of names leads to, and two trees that hold the
    same files under the same names, in whatever order their directories
    list them. *)
Definition file_at (t : node) (chain : list str) : option file :=
  match locate t chain with
  | Some (File f) => Some f
  | _ => None
  end.

Definition same_files (t1 t2 : node) : Prop :=
  forall chain, file_at t1 chain = file_at t2 chain.

(** The admission rule that the specification calls a deny-list: every
    file is admitted except those whose name ends in a listed extension. *)
Definition deny_list_policy (exts : list str) (file : str) : bool :=
  negb (endswith_any exts file).

(** What a module run printed and did. *)
Definition final (o : outcome) : world :=
  match o with Exit0 w => w | Uncaught _ w => w end.

Definition exit_status (o : outcome) : nat :=
  match o with Exit0 _ => 0 | Uncaught _ _ => 1 end.

(** The example tree of the specification: a/b.tsx holds the import on its
    third line, node_modules/c.tsx holds the same text, and logo.png holds
    the bytes of the term. *)
Definition import_line : str :=
  lit "import X from " ++ Deep.dquote :: lit "next/document" ++ [Deep.dquote].

Definition b_tsx : file :=
  {| readable := true;
     data := bytes_of (lit "// page" ++ 10%N :: 10%N :: import_line ++ [10%N]) |}.

Definition logo_png : file :=
  {| readable := true; data := xff :: bytes_of (lit "next/document") |}.

Definition sample : node :=
  Dir [ (lit "a", Dir [(lit "b.tsx", File b_tsx)]);
        (lit "node_modules", Dir [(lit "c.tsx", File b_tsx)]);
        (lit "logo.png", File logo_png) ].

(** The same files as [sample], listed in another order. *)
Definition shuffled : node :=
  Dir [ (lit "logo.png", File logo_png);
        (lit "node_modules", Dir [(lit "c.tsx", File b_tsx)]);
        (lit "a", Dir [(lit "b.tsx", File b_tsx)]) ].

(** A source file that is not valid UTF-8 and holds the bytes of the term,
    and a file that cannot be opened. *)
Definition latin1_ts : file :=
  {| readable := true;
     data := bytes_of (lit "// caf") ++ xe9 :: bytes_of (10%N :: import_line) |}.

Definition locked_ts : file :=
  {| readable := false; data := bytes_of import_line |}.

Definition troubled : node :=
  Dir [ (lit "bad.ts", File latin1_ts);
        (lit "locked.ts", File locked_ts);
        (lit "a", Dir [(lit "b.tsx", File b_tsx)]) ].

End Claims.

(** ** Vocabulary of the further properties *)

Module More.
Import Py Codec Os Tree Claims.

(** A term that holds no line-break character. *)
Definition unbroken (term : str) : bool :=
  forallb (fun c => negb (is_linebreak c)) term.

(** The names that lines 6 to 9 of search_script.py leave in [dirs]. *)
Definition kept (d : str) : bool := negb (mem d Script.ignored).

(** The paths of the files that a scan opened and decoded. *)
Definition decoded (evs : list event) : list str :=
  flat_map (fun e => match e with
                     | Open p (inr _) => [p]
                     | _ => []
                     end) evs.

(** The list that a call returns, empty when it raises. *)
Definition result_of (r : res (list str)) : list str :=
  match r with
  | Ok l _ => l
  | Raise _ _ => []
  end.

(** The chains of the files that a plan opens, decodes and finds to hold
    [term]. *)
Definition found_chains (term : str) (p : list item) : list (list str) :=
  flat_map (fun i => match i with
                     | Opened c n =>
                         match open_read Strict n with
                         | inr content =>
                             if contains term content then [c] else []
                         | inl _ => []
                         end
                     | Listed _ => []
                     end) p.

(** Bytes below 128. *)
Definition ascii_only (bs : list byte) : bool :=
  forallb (fun b => (Byte.to_N b <? 128)%N) bs.

(** A source file with Windows line ends, alone in a directory. *)
Definition crlf_ts : file :=
  {| readable := true;
     data := bytes_of (lit "a" ++ 13%N :: 10%N :: lit "b") |}.

Definition windows : node := Dir [(lit "w.ts", File crlf_ts)].

(** A listing in which a name occurs twice, as no directory has it. *)
Definition doubled : list str :=
  [lit "src"; lit "node_modules"; lit ".next"; lit "node_modules"].

End More.

(** * Properties *)

Import Py Codec Os Tree Claims.

Unset Implicit Arguments.

(** ** Strings *)

Section StringFacts.

Lemma str_eqb_eq (a b : str) : str_eqb a b = true <-> a = b.
Proof.
  unfold str_eqb. destruct (list_eq_dec N.eq_dec a b); split; congruence.
Qed.

Lemma str_eqb_refl (a : str) : str_eqb a a = true.
Proof. now apply str_eqb_eq. Qed.

Lemma str_eqb_neq (a b : str) : str_eqb a b = false <-> a <> b.
Proof.
  unfold str_eqb. destruct (list_eq_dec N.eq_dec a b); split; congruence.
Qed.

Lemma mem_In (x : str) (l : list str) : mem x l = true <-> In x l.
Proof.
  unfold mem. rewrite existsb_exists. split.
  - intros (y & Hy & E). apply str_eqb_eq in E. now subst.
  - intros H. exists x. split; [assumption | apply str_eqb_refl].
Qed.

Lemma mem_not_In (x : str) (l : list str) : mem x l = false <-> ~ In x l.
Proof.
  rewrite <- mem_In. destruct (mem x l); split; congruence.
Qed.

Lemma startswith_app (p s : str) :
  startswith p s = true <-> exists post, s = p ++ post.
Proof.
  revert s. induction p as [|a p IH]; intros s; simpl.
  - split; [exists s; reflexivity | reflexivity].
  - destruct s as [|b s].
    + split; [discriminate | intros (post & E); discriminate].
    + rewrite andb_true_iff, N.eqb_eq, IH. split.
      * intros (-> & post & ->). now exists post.
      * intros (post & E). injection E as -> ->. split; [reflexivity|].
        now exists post.
Qed.

Lemma contains_substring (needle hay : str) :
  contains needle hay = true <-> exists pre post, hay = pre ++ needle ++ post.
Proof.
  induction hay as [|c hay IH]; simpl; rewrite orb_true_iff, startswith_app.
  - split.
    + intros [(post & E) | H]; [|discriminate]. now exists [], post.
    + intros (pre & post & E). left. destruct pre; [|discriminate].
      now exists post.
  - rewrite IH. split.
    + intros [(post & E) | (pre & post & E)].
      * now exists [], post.
      * exists (c :: pre), post. now rewrite E.
    + intros (pre & post & E). destruct pre as [|c' pre]; simpl in E.
      * left. now exists post.
      * right. injection E as _ E. now exists pre, post.
Qed.

Lemma startswith_grow (p s rest : str) :
  startswith p s = true -> startswith p (s ++ rest) = true.
Proof.
  rewrite !startswith_app. intros (post & ->). exists (post ++ rest).
  now rewrite app_assoc.
Qed.

Lemma occurrences_contains (needle hay : str) :
  contains needle hay = true <-> 0 < occurrences needle hay.
Proof.
  induction hay as [|c hay IH]; simpl.
  - destruct (startswith needle []); simpl; split; (lia || congruence).
  - destruct (startswith needle (c :: hay)); simpl; [split; (lia || auto)|].
    exact IH.
Qed.

(** Occurrences on both sides of a character are occurrences of the whole. *)
Lemma occurrences_split (t a b : str) (c : N) :
  occurrences t a + occurrences t b <= occurrences t (a ++ c :: b).
Proof.
  induction a as [|x a IH]; simpl.
  - destruct t; simpl; lia.
  - pose proof (startswith_grow t (x :: a) (c :: b)) as G. simpl in G.
    destruct (startswith t (x :: a)).
    + rewrite G by reflexivity. lia.
    + destruct (startswith t (x :: a ++ c :: b)); lia.
Qed.

Lemma occurrences_tail (t b : str) (c : N) :
  occurrences t b <= occurrences t (c :: b).
Proof. simpl. lia. Qed.

End StringFacts.

(** ** Lines *)

Section LineFacts.

Variable term : str.

(** Cutting a text into lines loses occurrences at most. *)
Lemma splitlines_from_total (n : nat) :
  forall s cur, List.length s <= n ->
    line_total term (splitlines_from cur s) <= occurrences term (rev cur ++ s).
Proof.
  unfold line_total.
  induction n as [|n IH]; intros s cur Hn.
  - destruct s; [|simpl in Hn; lia]. simpl.
    destruct cur; simpl; [lia|]. rewrite app_nil_r. lia.
  - destruct s as [|c s']; simpl splitlines_from.
    + destruct cur; simpl; [lia|]. rewrite app_nil_r. lia.
    + simpl in Hn.
      assert (Cut : forall rest, List.length rest <= n ->
                list_sum (map (occurrences term)
                              (rev cur :: splitlines_from [] rest))
                <= occurrences term (rev cur ++ c :: rest)).
      { intros rest Hr. simpl map. simpl list_sum.
        pose proof (IH rest [] Hr) as H1. simpl in H1.
        pose proof (occurrences_split term (rev cur) rest c). lia. }
      destruct (N.eqb c 13).
      * destruct s' as [|c' s'']; [apply Cut; simpl; lia|].
        destruct c' as [|p]; [apply Cut; simpl in *; lia|].
        destruct p as [p|p|]; try (apply Cut; simpl in *; lia).
        destruct p as [p|p|]; try (apply Cut; simpl in *; lia).
        destruct p as [p|p|]; try (apply Cut; simpl in *; lia).
        destruct p as [p|p|]; try (apply Cut; simpl in *; lia).
        simpl map. simpl list_sum. simpl in Hn.
        pose proof (IH s'' [] ltac:(lia)) as H1. simpl in H1.
        pose proof (occurrences_split term (rev cur) (10%N :: s'') c).
        pose proof (occurrences_tail term s'' 10%N). lia.
      * destruct (is_linebreak c); [apply Cut; lia|].
        pose proof (IH s' (c :: cur) ltac:(lia)) as H1.
        simpl rev in H1. now rewrite <- app_assoc in H1.
Qed.

Lemma splitlines_total (s : str) :
  line_total term (splitlines s) <= occurrences term s.
Proof.
  apply (splitlines_from_total (List.length s) s []). apply le_n.
Qed.

(** When the lines hold one occurrence in all, and line [k] holds the
    term, the loop of lines 25 to 27 prints that line and no other. *)
Lemma line_hits_single (lines : list str) :
  forall i k line,
    line_total term lines <= 1 ->
    nth_error lines k = Some line ->
    contains term line = true ->
    flat_map (fun il => if contains term (snd il)
                        then [LineHit (S (fst il)) (Deep.preview (snd il))]
                        else [])
             (enumerate_from i lines)
    = [LineHit (S (i + k)) (Deep.preview line)].
Proof.
  unfold line_total.
  induction lines as [|l lines IH]; intros i k line Ht Hk Hc.
  - destruct k; discriminate.
  - simpl in Ht. destruct k as [|k]; simpl in Hk.
    + injection Hk as ->. simpl. rewrite Hc. rewrite Nat.add_0_r.
      simpl. f_equal.
      apply occurrences_contains in Hc.
      assert (Hz : list_sum (map (occurrences term) lines) = 0) by lia.
      clear - Hz. revert i. induction lines as [|l' lines IH]; intros i.
      * reflexivity.
      * simpl in Hz. simpl.
        destruct (contains term l') eqn:E.
        -- apply occurrences_contains in E. lia.
        -- apply IH. lia.
    + simpl. destruct (contains term l) eqn:E.
      * apply occurrences_contains in E.
        assert (Hin : In line lines) by (eapply nth_error_In; eauto).
        apply occurrences_contains in Hc.
        assert (occurrences term line <= list_sum (map (occurrences term) lines)).
        { clear - Hin. induction lines as [|x xs IHx]; [destruct Hin|].
          simpl. destruct Hin as [->|Hin]; [lia|]. specialize (IHx Hin). lia. }
        lia.
      * simpl. rewrite (IH (S i) k line); [|lia|assumption|assumption].
        now rewrite Nat.add_succ_r.
Qed.

End LineFacts.

(** ** The walk *)

Section WalkFacts.

Lemma node_induction (P : node -> Prop) :
  (forall f, P (File f)) -> P Opaque ->
  (forall es, Forall (fun e => P (snd e)) es -> P (Dir es)) ->
  forall t, P t.
Proof.
  intros HF HO HD. fix IH 1. intros [f | | es].
  - apply HF.
  - apply HO.
  - apply HD. induction es as [|[n t] es IHes]; constructor.
    + apply IH.
    + apply IHes.
Qed.

Lemma lookup_In (es : list (str * node)) (d : str) (t : node) :
  lookup es d = Some t -> In (d, t) es.
Proof.
  induction es as [|[n t'] es IH]; simpl; [discriminate|].
  destruct (str_eqb d n) eqn:E.
  - apply str_eqb_eq in E. intros [= ->]. left. now subst.
  - intros H. right. now apply IH.
Qed.

Lemma walk_Dir {A} body top es (a : A) w :
  walk body top (Dir es) a w =
  match body top (dirnames es) (filenames es) (lookup es) a
             (log (Scandir top) w) with
  | Raise e w' => Raise e w'
  | Ok (dirs, a1) w1 =>
      descend (fun d t' => walk body (path_join top d) t') es dirs a1 w1
  end.
Proof.
  simpl.
  destruct (body top (dirnames es) (filenames es) (lookup es) a
                 (log (Scandir top) w)) as [[dirs a1] w1 | e w1];
    [|reflexivity].
  revert a1 w1. induction dirs as [|d ds IH]; intros a1 w1; [reflexivity|].
  simpl.
  match goal with
  | |- match ?F es with _ => _ end = _ =>
      assert (E : forall l, F l = match lookup l d with
                                  | Some t' => walk body (path_join top d) t' a1 w1
                                  | None => Ok a1 w1
                                  end)
  end.
  { induction l as [|[n t'] l IHl]; [reflexivity|]. simpl.
    destruct (str_eqb d n); [reflexivity | apply IHl]. }
  rewrite E. destruct (lookup es d) as [t'|].
  - destruct (walk body (path_join top d) t' a1 w1); [apply IH | reflexivity].
  - apply IH.
Qed.

Lemma plan_Dir pr accept es :
  plan pr accept (Dir es) =
  Listed [] ::
  map (fun f => Opened [f] (lookup es f)) (filter accept (filenames es)) ++
  flat_map (fun d => match lookup es d with
                     | Some t' => map (below d) (plan pr accept t')
                     | None => []
                     end) (pr (dirnames es)).
Proof.
  simpl. do 2 f_equal. apply flat_map_ext. intros d.
  induction es as [|[n t'] l IHl]; [reflexivity|]. simpl.
  destruct (str_eqb d n); [reflexivity | apply IHl].
Qed.

Lemma locate_cons es c chain :
  locate (Dir es) (c :: chain) =
  match lookup es c with
  | Some t' => locate t' chain
  | None => None
  end.
Proof.
  simpl. induction es as [|[n t'] l IHl]; [reflexivity|]. simpl.
  destruct (str_eqb c n); [reflexivity | apply IHl].
Qed.

Lemma extend_extend w e1 o1 e2 o2 :
  extend (extend w e1 o1) e2 o2 = extend w (e1 ++ e2) (o1 ++ o2).
Proof. unfold extend. simpl. now rewrite <- !app_assoc. Qed.

Lemma extend_nil w : extend w [] [] = w.
Proof. destruct w. unfold extend. simpl. now rewrite !app_nil_r. Qed.

Lemma log_extend e w : log e w = extend w [e] [].
Proof. unfold log, extend. now rewrite app_nil_r. Qed.

Lemma print_extend o w : print o w = extend w [] [o].
Proof. unfold print, extend. now rewrite app_nil_r. Qed.

Lemma hits_app term a b : hits term (a ++ b) = hits term a ++ hits term b.
Proof. apply flat_map_app. Qed.

Lemma complaints_app a b : complaints (a ++ b) = complaints a ++ complaints b.
Proof. apply flat_map_app. Qed.

Lemma opened_app a b : opened (a ++ b) = opened a ++ opened b.
Proof. apply flat_map_app. Qed.

Lemma render_below mode top d i :
  render mode top (below d i) = render mode (path_join top d) i.
Proof. now destruct i. Qed.

(** Lines 11 to 20: the loop over [files]. *)
Lemma file_steps term root resolve files :
  forall m w,
    let evs := map (fun f => Open (path_join root f)
                                  (open_read Strict (resolve f)))
                   (filter Script.admits files) in
    fold_left (Script.file_step term root resolve) files (m, w) =
    (m ++ hits term evs, extend w evs (complaints evs)).
Proof.
  induction files as [|f files IH]; intros m w; cbv zeta.
  - simpl. now rewrite app_nil_r, extend_nil.
  - cbn [fold_left filter].
    replace (Script.file_step term root resolve (m, w) f) with
      (if Script.admits f then
         match open_read Strict (resolve f) with
         | inr content =>
             if contains term content
             then (m ++ [path_join root f],
                   log (Open (path_join root f) (open_read Strict (resolve f))) w)
             else (m, log (Open (path_join root f) (open_read Strict (resolve f))) w)
         | inl e =>
             (m, print (CouldNotRead (path_join root f) e)
                       (log (Open (path_join root f) (open_read Strict (resolve f))) w))
         end
       else (m, w)) by reflexivity.
    destruct (Script.admits f); [|apply IH].
    cbn [map].
    destruct (open_read Strict (resolve f)) as [e | content] eqn:R.
    + rewrite IH. cbv zeta. rewrite log_extend, print_extend, !extend_extend.
      unfold hits, complaints. cbn [flat_map]. reflexivity.
    + destruct (contains term content) eqn:C; rewrite IH; cbv zeta;
        rewrite log_extend, !extend_extend; unfold hits, complaints;
        cbn [flat_map]; rewrite ?C; rewrite <- ?app_assoc; reflexivity.
Qed.

Lemma remove_if_present_total x dirs :
  Script.remove_if_present x dirs = Some (drop_first x dirs).
Proof.
  unfold Script.remove_if_present.
  induction dirs as [|y dirs IH]; [reflexivity|].
  unfold mem in *. simpl. destruct (str_eqb x y); simpl; [reflexivity|].
  destruct (existsb (str_eqb x) dirs).
  - now rewrite IH.
  - injection IH as IH. now rewrite <- IH.
Qed.

(** The guards of lines 6 and 8 keep [dirs.remove] from raising. *)
Lemma prune_total dirs : Script.prune dirs = Some (script_pr dirs).
Proof.
  unfold Script.prune, script_pr. rewrite remove_if_present_total.
  apply remove_if_present_total.
Qed.

Lemma hits_scandir term p evs : hits term (Scandir p :: evs) = hits term evs.
Proof. reflexivity. Qed.

Lemma complaints_scandir p evs : complaints (Scandir p :: evs) = complaints evs.
Proof. reflexivity. Qed.

(** A walk of search_files performs the steps of its plan, appends the
    paths of the files that hold the term, and never raises. *)
Lemma search_walk term :
  forall t top m w,
    let evs := map (render Strict top) (script_plan t) in
    walk (Script.dir_body term) top t m w =
    Ok (m ++ hits term evs) (extend w evs (complaints evs)).
Proof.
  intros t. unfold script_plan.
  induction t as [f | | es IH] using node_induction; intros top m w;
    try (simpl; now rewrite app_nil_r, extend_nil).
  cbv zeta. rewrite walk_Dir, plan_Dir.
  unfold Script.dir_body. rewrite prune_total.
  rewrite file_steps. cbv zeta.
  rewrite log_extend, extend_extend. cbn [app].
  set (fevs := map _ (filter Script.admits (filenames es))).
  cbn [map]. rewrite map_app, map_map.
  change (map (fun x => render Strict top (Opened [x] (lookup es x)))
              (filter Script.admits (filenames es))) with fevs.
  change (render Strict top (Listed [])) with (Scandir top).
  assert (D : forall ds m1 w1,
    let devs := map (render Strict top)
      (flat_map (fun d => match lookup es d with
                          | Some t' => map (below d) (plan script_pr Script.admits t')
                          | None => []
                          end) ds) in
    descend (fun d t' => walk (Script.dir_body term) (path_join top d) t')
            es ds m1 w1 =
    Ok (m1 ++ hits term devs) (extend w1 devs (complaints devs))).
  { induction ds as [|d ds IHds]; intros m1 w1; cbv zeta.
    - simpl. now rewrite app_nil_r, extend_nil.
    - cbn [descend flat_map]. destruct (lookup es d) as [t'|] eqn:Lk.
      + apply lookup_In in Lk. rewrite Forall_forall in IH.
        rewrite (IH _ Lk). cbv zeta. rewrite IHds. cbv zeta.
        rewrite extend_extend, map_app, hits_app, complaints_app, map_map.
        rewrite <- app_assoc.
        rewrite (map_ext _ _ (render_below Strict top d)).
        reflexivity.
      + rewrite IHds. reflexivity. }
  rewrite D. cbv zeta. rewrite extend_extend.
  rewrite hits_scandir, complaints_scandir, hits_app, complaints_app.
  rewrite <- app_assoc. reflexivity.
Qed.

End WalkFacts.

(** ** Paths *)

Section PathFacts.

Lemma name_ok_spec (n : str) :
  name_ok n = true <-> n <> [] /\ ~ In slash n.
Proof.
  destruct n as [|c n].
  - simpl. split; [discriminate | intros [H _]; now elim H].
  - change (name_ok (c :: n)) with (negb (existsb (N.eqb slash) (c :: n))).
    rewrite negb_true_iff. split.
    + intros H. split; [discriminate|]. intros Hin.
      assert (E : existsb (N.eqb slash) (c :: n) = true).
      { apply existsb_exists. exists slash. split; [exact Hin | apply N.eqb_refl]. }
      congruence.
    + intros [_ H]. destruct (existsb (N.eqb slash) (c :: n)) eqn:E;
        [|reflexivity].
      elim H. apply existsb_exists in E. destruct E as (x & Hx & E).
      apply N.eqb_eq in E. now subst.
Qed.

Lemma name_ok_no_lead (n : str) :
  name_ok n = true -> startswith [slash] n = false.
Proof.
  intros H. apply name_ok_spec in H. destruct H as [_ H].
  destruct n as [|c n]; [reflexivity|].
  change (startswith [slash] (c :: n)) with (N.eqb slash c && true).
  destruct (N.eqb slash c) eqn:E; [|reflexivity].
  apply N.eqb_eq in E. elim H. left. now subst.
Qed.

Lemma name_ok_no_trail (x n : str) :
  name_ok n = true -> endswith [slash] (x ++ n) = false.
Proof.
  intros H. apply name_ok_spec in H. destruct H as [Hne H].
  unfold endswith. rewrite rev_app_distr.
  destruct (rev n) as [|c r] eqn:E.
  - apply (f_equal (@rev N)) in E. rewrite rev_involutive in E. now elim Hne.
  - change (startswith (rev [slash]) ((c :: r) ++ rev x))
      with (N.eqb slash c && true).
    destruct (N.eqb slash c) eqn:Ec; [|reflexivity].
    apply N.eqb_eq in Ec. elim H. apply in_rev. rewrite E. left. now subst.
Qed.

Lemma path_join_ok (a b : str) :
  name_ok b = true -> path_join a b = a ++ sep a ++ b.
Proof.
  intros H. unfold path_join, sep. rewrite (name_ok_no_lead b H).
  destruct a as [|c a]; [reflexivity|].
  destruct (endswith [slash] (c :: a)); reflexivity.
Qed.

Lemma sep_after (x n : str) : name_ok n = true -> sep (x ++ n) = [slash].
Proof.
  intros H. unfold sep. rewrite (name_ok_no_trail x n H).
  destruct (x ++ n) eqn:E; [|reflexivity].
  apply app_eq_nil in E. destruct E as [_ ->]. discriminate.
Qed.

Lemma joins_tail (cs : list str) :
  forall x c, name_ok c = true -> forallb name_ok cs = true ->
    joins (x ++ c) cs = x ++ c ++ tail_of cs.
Proof.
  induction cs as [|c' cs IH]; intros x c Hc Hcs; simpl.
  - now rewrite app_nil_r.
  - simpl in Hcs. apply andb_true_iff in Hcs. destruct Hcs as [Hc' Hcs].
    rewrite (path_join_ok _ c' Hc'), (sep_after x c Hc).
    rewrite (app_assoc (x ++ c)).
    rewrite (IH ((x ++ c) ++ [slash]) c' Hc' Hcs).
    now rewrite <- !app_assoc.
Qed.

Lemma joins_cons (top c : str) (cs : list str) :
  name_ok c = true -> forallb name_ok cs = true ->
  joins top (c :: cs) = top ++ sep top ++ c ++ tail_of cs.
Proof.
  intros Hc Hcs. simpl. rewrite (path_join_ok _ c Hc).
  rewrite app_assoc. rewrite (joins_tail cs (top ++ sep top) c Hc Hcs).
  now rewrite <- app_assoc.
Qed.

(** Two texts that agree, each a slash-free name followed by nothing or
    by a slash, have the same name. *)
Lemma name_cut (a b x y : str) :
  ~ In slash a -> ~ In slash b ->
  (x = [] \/ exists x', x = slash :: x') ->
  (y = [] \/ exists y', y = slash :: y') ->
  a ++ x = b ++ y -> a = b /\ x = y.
Proof.
  revert b. induction a as [|c a IH]; intros b Ha Hb Hx Hy E.
  - destruct b as [|d b]; [now split|]. simpl in E.
    destruct Hx as [-> | (x' & ->)]; [discriminate|].
    injection E as E _. elim Hb. left. now subst.
  - destruct b as [|d b]; simpl in E.
    + destruct Hy as [-> | (y' & ->)]; [discriminate|].
      injection E as E _. elim Ha. left. now subst.
    + injection E as -> E.
      destruct (IH b) as [-> ->]; auto.
      * intros H. apply Ha. now right.
      * intros H. apply Hb. now right.
Qed.

Lemma tail_of_shape (cs : list str) :
  tail_of cs = [] \/ exists x, tail_of cs = slash :: x.
Proof. destruct cs; [now left | right; eexists; reflexivity]. Qed.

Lemma tail_of_inj (cs1 : list str) :
  forall cs2,
    forallb name_ok cs1 = true -> forallb name_ok cs2 = true ->
    tail_of cs1 = tail_of cs2 -> cs1 = cs2.
Proof.
  induction cs1 as [|c1 cs1 IH]; intros [|c2 cs2] H1 H2 E;
    try reflexivity; try discriminate.
  simpl in H1, H2. apply andb_true_iff in H1, H2.
  destruct H1 as [Hc1 H1], H2 as [Hc2 H2].
  simpl in E. injection E as E.
  apply name_ok_spec in Hc1, Hc2.
  destruct (name_cut c1 c2 (tail_of cs1) (tail_of cs2)) as [-> Et];
    try tauto; try apply tail_of_shape.
  f_equal. now apply IH.
Qed.

(** Different chains of proper names give different paths. *)
Lemma joins_inj (top : str) (c1 c2 : list str) :
  forallb name_ok c1 = true -> forallb name_ok c2 = true ->
  joins top c1 = joins top c2 -> c1 = c2.
Proof.
  intros H1 H2 E.
  assert (Short : forall c cs, name_ok c = true -> forallb name_ok cs = true ->
            top <> joins top (c :: cs)).
  { intros c cs Hc Hcs Heq. rewrite (joins_cons top c cs Hc Hcs) in Heq.
    apply (f_equal (@List.length N)) in Heq. rewrite !length_app in Heq.
    apply name_ok_spec in Hc. destruct c; [now destruct Hc|]. simpl in Heq. lia. }
  destruct c1 as [|a1 c1], c2 as [|a2 c2]; try reflexivity.
  - simpl in H2. apply andb_true_iff in H2. destruct H2.
    now elim (Short a2 c2).
  - simpl in H1. apply andb_true_iff in H1. destruct H1.
    symmetry in E. now elim (Short a1 c1).
  - simpl in H1, H2. apply andb_true_iff in H1, H2.
    destruct H1 as [Ha1 H1], H2 as [Ha2 H2].
    rewrite (joins_cons top a1 c1 Ha1 H1), (joins_cons top a2 c2 Ha2 H2) in E.
    apply app_inv_head in E. apply app_inv_head in E.
    apply name_ok_spec in Ha1, Ha2.
    destruct (name_cut a1 a2 (tail_of c1) (tail_of c2)) as [-> Et];
      try tauto; try apply tail_of_shape.
    f_equal. now apply tail_of_inj.
Qed.

End PathFacts.

(** ** Well-formed trees *)

Section TreeFacts.

Lemma distinct_NoDup (l : list str) : distinct l = true <-> NoDup l.
Proof.
  induction l as [|x l IH]; simpl.
  - split; [constructor | reflexivity].
  - rewrite andb_true_iff, negb_true_iff, mem_not_In, IH, NoDup_cons_iff.
    reflexivity.
Qed.

Lemma wf_Dir (es : list (str * node)) :
  wf (Dir es) = true <->
  NoDup (map fst es) /\ forallb name_ok (map fst es) = true /\
  Forall (fun e => wf (snd e) = true) es.
Proof.
  simpl. rewrite !andb_true_iff, distinct_NoDup.
  assert (E : forall l,
    (fix all (l : list (str * node)) : bool :=
       match l with
       | [] => true
       | (_, t') :: l' => wf t' && all l'
       end) l = true <-> Forall (fun e => wf (snd e) = true) l).
  { induction l as [|[n t] l IHl].
    - split; [constructor | reflexivity].
    - rewrite andb_true_iff, IHl. split.
      + intros [H1 H2]. now constructor.
      + intros H. inversion H; subst. now split. }
  rewrite E. tauto.
Qed.

Lemma lookup_first (es : list (str * node)) (n : str) (t : node) :
  NoDup (map fst es) -> In (n, t) es -> lookup es n = Some t.
Proof.
  induction es as [|[m u] es IH]; simpl; intros Hnd Hin; [contradiction|].
  inversion Hnd as [|? ? Hm Hnd']; subst.
  destruct Hin as [E | Hin].
  - injection E as -> ->. now rewrite str_eqb_refl.
  - destruct (str_eqb n m) eqn:E.
    + apply str_eqb_eq in E. subst. elim Hm.
      apply in_map_iff. now exists (m, t).
    + now apply IH.
Qed.

Lemma wf_lookup (es : list (str * node)) (n : str) (t : node) :
  wf (Dir es) = true -> lookup es n = Some t ->
  wf t = true /\ name_ok n = true.
Proof.
  intros W L. apply wf_Dir in W. destruct W as (_ & Hok & Hall).
  apply lookup_In in L. split.
  - rewrite Forall_forall in Hall. exact (Hall _ L).
  - rewrite forallb_forall in Hok. apply Hok.
    apply in_map_iff. now exists (n, t).
Qed.

Lemma locate_names_ok (c : list str) :
  forall t n, wf t = true -> locate t c = Some n ->
    forallb name_ok c = true.
Proof.
  induction c as [|x c IH]; intros t n W L; [reflexivity|].
  destruct t as [f | | es]; try discriminate.
  rewrite locate_cons in L. destruct (lookup es x) as [t'|] eqn:Lk;
    [|discriminate].
  destruct (wf_lookup es x t' W Lk) as [W' Hx].
  simpl. rewrite Hx. exact (IH t' n W' L).
Qed.

Lemma filenames_In (es : list (str * node)) (f : str) :
  In f (filenames es) <-> exists t, In (f, t) es /\ is_file t = true.
Proof.
  unfold filenames. rewrite in_map_iff. split.
  - intros ([n t] & E & H). simpl in E. subst. apply filter_In in H.
    now exists t.
  - intros (t & H1 & H2). exists (f, t). split; [reflexivity|].
    now apply filter_In.
Qed.

Lemma dirnames_In (es : list (str * node)) (d : str) :
  In d (dirnames es) <-> exists t, In (d, t) es /\ is_file t = false.
Proof.
  unfold dirnames. rewrite in_map_iff. split.
  - intros ([n t] & E & H). simpl in E. subst. apply filter_In in H.
    exists t. now rewrite <- negb_true_iff.
  - intros (t & H1 & H2). exists (d, t). split; [reflexivity|].
    apply filter_In. now rewrite negb_true_iff.
Qed.

Lemma names_filter_NoDup (p : str * node -> bool) (es : list (str * node)) :
  NoDup (map fst es) -> NoDup (map fst (filter p es)).
Proof.
  induction es as [|e es IH]; simpl; intros H; [constructor|].
  inversion H as [|? ? Hn Hnd]; subst.
  destruct (p e); [|now apply IH]. simpl. constructor; [|now apply IH].
  intros Hin. apply Hn. apply in_map_iff in Hin.
  destruct Hin as (x & E & Hx). apply filter_In in Hx.
  apply in_map_iff. exists x. tauto.
Qed.

Lemma drop_first_In (x : str) (l : list str) (d : str) :
  NoDup l -> (In d (drop_first x l) <-> In d l /\ d <> x).
Proof.
  induction l as [|y l IH]; simpl; intros H; [tauto|].
  inversion H as [|? ? Hy Hnd]; subst.
  destruct (str_eqb x y) eqn:E.
  - apply str_eqb_eq in E. subst. split.
    + intros Hin. split; [now right|]. intros ->. contradiction.
    + intros [[->|Hin] Hne]; [now elim Hne | assumption].
  - apply str_eqb_neq in E. simpl. rewrite (IH Hnd). split.
    + intros [->|[Hin Hne]]; split; auto.
    + intros [[->|Hin] Hne]; auto.
Qed.

Lemma drop_first_NoDup (x : str) (l : list str) :
  NoDup l -> NoDup (drop_first x l).
Proof.
  induction l as [|y l IH]; simpl; intros H; [constructor|].
  inversion H as [|? ? Hy Hnd]; subst.
  destruct (str_eqb x y); [assumption|].
  constructor; [|now apply IH].
  intros Hin. apply (drop_first_In x l y Hnd) in Hin. tauto.
Qed.

Lemma script_pr_NoDup (ds : list str) : NoDup ds -> NoDup (script_pr ds).
Proof. intros H. unfold script_pr. now do 2 apply drop_first_NoDup. Qed.

Lemma script_pr_In (ds : list str) (d : str) :
  NoDup ds ->
  (In d (script_pr ds) <-> In d ds /\ negb (mem d Script.ignored) = true).
Proof.
  intros H. unfold script_pr.
  rewrite drop_first_In by now apply drop_first_NoDup.
  rewrite drop_first_In by assumption.
  rewrite negb_true_iff, mem_not_In. unfold Script.ignored. simpl.
  intuition congruence.
Qed.

Lemma flat_map_NoDup {A B} (g : A -> list B) (l : list A) :
  NoDup l ->
  (forall a, In a l -> NoDup (g a)) ->
  (forall a1 a2 b, In a1 l -> In a2 l -> In b (g a1) -> In b (g a2) -> a1 = a2) ->
  NoDup (flat_map g l).
Proof.
  induction l as [|a l IH]; simpl; intros Hnd Hg Hsep; [constructor|].
  inversion Hnd as [|? ? Ha Hnd']; subst.
  apply NoDup_app.
  - apply Hg. now left.
  - apply IH; auto. intros a1 a2 b H1 H2. apply Hsep; now right.
  - intros b Hb Hin. apply in_flat_map in Hin. destruct Hin as (a' & Ha' & Hb').
    assert (a = a') by (apply (Hsep a a' b); auto; now right).
    subst. contradiction.
Qed.

Lemma opened_chains_In (p : list item) (c : list str) :
  In c (opened_chains p) <-> exists n, In (Opened c n) p.
Proof.
  unfold opened_chains. rewrite in_flat_map. split.
  - intros ([c' | c' n] & Hi & Hc); simpl in Hc; [contradiction|].
    destruct Hc as [->|[]]. now exists n.
  - intros (n & Hi). exists (Opened c n). split; [assumption | now left].
Qed.

Lemma opened_chains_app (p q : list item) :
  opened_chains (p ++ q) = opened_chains p ++ opened_chains q.
Proof. apply flat_map_app. Qed.

Lemma opened_chains_below (d : str) (p : list item) :
  opened_chains (map (below d) p) = map (cons d) (opened_chains p).
Proof.
  induction p as [|[c | c n] p IH]; simpl; [reflexivity | assumption|].
  now rewrite IH.
Qed.

Lemma opened_render (mode : errors) (top : str) (p : list item) :
  opened (map (render mode top) p) = map (joins top) (opened_chains p).
Proof.
  induction p as [|[c | c n] p IH]; simpl; [reflexivity | assumption|].
  now rewrite IH.
Qed.

End TreeFacts.

(** ** The plan of a scan over a well-formed tree *)

Section PlanFacts.

Variable pr : list str -> list str.
Variables accept keep : str -> bool.
Hypothesis pr_NoDup : forall ds, NoDup ds -> NoDup (pr ds).
Hypothesis pr_In :
  forall ds d, NoDup ds -> (In d (pr ds) <-> In d ds /\ keep d = true).

(** Every step of the plan concerns a node of the tree that is reached
    through kept directories only. *)
Lemma plan_sound :
  forall t, wf t = true ->
  forall i, In i (plan pr accept t) ->
    match i with
    | Listed c =>
        forallb keep c = true /\ exists es, locate t c = Some (Dir es)
    | Opened c n =>
        exists ds name f,
          c = ds ++ [name] /\ n = Some (File f) /\
          locate t c = Some (File f) /\
          accept name = true /\ forallb keep ds = true
    end.
Proof.
  intros t.
  induction t as [f | | es IH] using node_induction; intros W i Hi;
    try contradiction.
  rewrite plan_Dir in Hi.
  pose proof W as W0. apply wf_Dir in W. destruct W as (Hnd & Hok & Hall).
  destruct Hi as [<- | Hi].
  - split; [reflexivity | now exists es].
  - apply in_app_or in Hi. destruct Hi as [Hi | Hi].
    + apply in_map_iff in Hi. destruct Hi as (name & <- & Hin).
      apply filter_In in Hin. destruct Hin as [Hin Had].
      apply filenames_In in Hin. destruct Hin as (t & Hin & Hf).
      destruct t as [f | | es']; try discriminate.
      pose proof (lookup_first es name (File f) Hnd Hin) as Lk.
      exists [], name, f. rewrite locate_cons, Lk. simpl. auto.
    + apply in_flat_map in Hi. destruct Hi as (d & Hd & Hi).
      apply pr_In in Hd; [|now apply names_filter_NoDup].
      destruct Hd as [Hd Hk].
      destruct (lookup es d) as [t'|] eqn:Lk; [|contradiction].
      apply in_map_iff in Hi. destruct Hi as (i' & <- & Hi').
      rewrite Forall_forall in IH.
      pose proof (IH _ (lookup_In es d t' Lk)) as IHt. simpl in IHt.
      destruct (wf_lookup es d t' W0 Lk) as [W' _].
      specialize (IHt W' i' Hi').
      destruct i' as [c | c n]; cbn [below].
      * destruct IHt as [Hc (es' & Hl)].
        split; [simpl; now rewrite Hk, Hc|].
        exists es'. now rewrite locate_cons, Lk.
      * destruct IHt as (ds & name & f & -> & -> & Hl & Had & Hds).
        exists (d :: ds), name, f.
        change ((d :: ds) ++ [name]) with (d :: ds ++ [name]).
        rewrite locate_cons, Lk.
        repeat split; try assumption. simpl. now rewrite Hk.
Qed.

(** Every admitted file below kept directories is opened. *)
Lemma plan_complete (ds : list str) :
  forall t name f, wf t = true ->
    locate t (ds ++ [name]) = Some (File f) ->
    accept name = true -> forallb keep ds = true ->
    In (Opened (ds ++ [name]) (Some (File f))) (plan pr accept t).
Proof.
  induction ds as [|d ds IH]; intros t name f W L Had Hk.
  - destruct t as [f' | | es]; try discriminate.
    simpl app in *. rewrite locate_cons in L.
    destruct (lookup es name) as [t'|] eqn:Lk; [|discriminate].
    assert (t' = File f) by (destruct t'; simpl in L; congruence).
    subst t'.
    rewrite plan_Dir. right. apply in_or_app. left.
    apply in_map_iff. exists name. rewrite Lk. split; [reflexivity|].
    apply filter_In. split; [|assumption].
    apply filenames_In. exists (File f). split; [|reflexivity].
    now apply lookup_In.
  - destruct t as [f' | | es]; try discriminate.
    change ((d :: ds) ++ [name]) with (d :: ds ++ [name]) in *.
    rewrite locate_cons in L.
    destruct (lookup es d) as [t'|] eqn:Lk; [|discriminate].
    simpl in Hk. apply andb_true_iff in Hk. destruct Hk as [Hd Hk].
    destruct (wf_lookup es d t' W Lk) as [W' _].
    rewrite plan_Dir. right. apply in_or_app. right.
    apply in_flat_map. exists d. split.
    + apply wf_Dir in W. destruct W as (Hnd & _ & _).
      apply pr_In; [now apply names_filter_NoDup|]. split; [|assumption].
      apply dirnames_In. exists t'. split; [now apply lookup_In|].
      destruct t' as [f' | | es']; try reflexivity.
      destruct ds; discriminate.
    + rewrite Lk. apply in_map_iff.
      exists (Opened (ds ++ [name]) (Some (File f))). split; [reflexivity|].
      now apply IH.
Qed.

(** No file is opened twice. *)
Lemma plan_opened_NoDup :
  forall t, wf t = true -> NoDup (opened_chains (plan pr accept t)).
Proof.
  intros t.
  induction t as [f | | es IH] using node_induction; intros W;
    try (simpl; constructor).
  rewrite plan_Dir.
  pose proof W as W0. apply wf_Dir in W. destruct W as (Hnd & Hok & Hall).
  change (opened_chains (Listed [] :: ?l)) with (opened_chains l).
  rewrite opened_chains_app.
  assert (Efiles : forall l,
    opened_chains (map (fun f => Opened [f] (lookup es f)) l) =
    map (fun f => [f]) l).
  { induction l as [|x l IHl]; simpl; [reflexivity | now rewrite IHl]. }
  rewrite Efiles.
  assert (Edirs : forall l,
    opened_chains
      (flat_map (fun d => match lookup es d with
                          | Some t' => map (below d) (plan pr accept t')
                          | None => []
                          end) l) =
    flat_map (fun d => match lookup es d with
                       | Some t' => map (cons d) (opened_chains (plan pr accept t'))
                       | None => []
                       end) l).
  { induction l as [|x l IHl]; simpl; [reflexivity|].
    rewrite opened_chains_app, IHl. f_equal.
    destruct (lookup es x); [apply opened_chains_below | reflexivity]. }
  rewrite Edirs.
  apply NoDup_app.
  - apply NoDup_map_NoDup_ForallPairs.
    + intros x y _ _ E. now injection E.
    + apply NoDup_filter. now apply names_filter_NoDup.
  - apply flat_map_NoDup.
    + apply pr_NoDup. now apply names_filter_NoDup.
    + intros d _. destruct (lookup es d) as [t'|] eqn:Lk; [|constructor].
      apply NoDup_map_NoDup_ForallPairs.
      * intros x y _ _ E. now injection E.
      * rewrite Forall_forall in IH.
        apply (IH _ (lookup_In es d t' Lk)).
        now destruct (wf_lookup es d t' W0 Lk).
    + intros d1 d2 c _ _ H1 H2.
      destruct (lookup es d1); [|contradiction].
      destruct (lookup es d2); [|contradiction].
      apply in_map_iff in H1, H2.
      destruct H1 as (c1 & <- & _), H2 as (c2 & E & _). now injection E.
  - intros c H1 H2. apply in_map_iff in H1. destruct H1 as (f & <- & _).
    apply in_flat_map in H2. destruct H2 as (d & _ & H2).
    destruct (lookup es d) as [t'|] eqn:Lk; [|contradiction].
    apply in_map_iff in H2. destruct H2 as (c' & E & Hc').
    injection E as -> ->.
    apply opened_chains_In in Hc'. destruct Hc' as (n & Hc').
    destruct (wf_lookup es f t' W0 Lk) as [W' _].
    pose proof (plan_sound t' W' _ Hc') as S. simpl in S.
    destruct S as (ds & name & f0 & E & _). destruct ds; discriminate.
Qed.

End PlanFacts.

(** ** A scan of search_files *)

Section ScanFacts.

Variables (directory : str) (fs : node).

Lemma search_files_runs (term : str) (w : world) :
  Script.search_files directory fs term w =
  Ok (hits term (script_events directory fs))
     (extend w (script_events directory fs)
             (complaints (script_events directory fs))).
Proof.
  unfold Script.search_files. rewrite search_walk. reflexivity.
Qed.

Lemma hits_In (term p : str) (evs : list event) :
  In p (hits term evs) <->
  exists content, In (Open p (inr content)) evs /\ contains term content = true.
Proof.
  unfold hits. rewrite in_flat_map. split.
  - intros (e & He & Hp). destruct e as [q | q [x | content]];
      simpl in Hp; try contradiction.
    destruct (contains term content) eqn:C; [|contradiction].
    destruct Hp as [-> | []]. now exists content.
  - intros (content & He & C). exists (Open p (inr content)).
    split; [assumption|]. rewrite C. now left.
Qed.

Lemma hits_opened (term p : str) (evs : list event) :
  In p (hits term evs) -> In p (opened evs).
Proof.
  rewrite hits_In. intros (content & He & _). unfold opened.
  apply in_flat_map. exists (Open p (inr content)). split; [assumption|].
  now left.
Qed.

Lemma hits_NoDup (term : str) (evs : list event) :
  NoDup (opened evs) -> NoDup (hits term evs).
Proof.
  induction evs as [|e evs IH]; simpl; intros H; [constructor|].
  destruct e as [q | q [x | content]]; simpl in *; try now apply IH.
  - inversion H; subst. now apply IH.
  - inversion H as [|? ? Hq Hnd]; subst.
    destruct (contains term content); simpl; [|now apply IH].
    constructor; [|now apply IH]. intros Hin. apply Hq.
    now apply hits_opened in Hin.
Qed.

Lemma opened_In (p : str) (evs : list event) :
  In p (opened evs) <-> exists r, In (Open p r) evs.
Proof.
  unfold opened. rewrite in_flat_map. split.
  - intros (e & He & Hp). destruct e as [q | q r]; simpl in Hp;
      [contradiction|].
    destruct Hp as [-> | []]. now exists r.
  - intros (r & He). exists (Open p r). split; [assumption | now left].
Qed.

Lemma complaints_In (p : str) (e : exn) (evs : list event) :
  In (Open p (inl e)) evs -> In (CouldNotRead p e) (complaints evs).
Proof.
  intros H. unfold complaints. apply in_flat_map.
  exists (Open p (inl e)). split; [assumption | now left].
Qed.

Hypothesis fs_wf : wf fs = true.

Lemma script_sound (i : item) :
  In i (script_plan fs) ->
  match i with
  | Listed c =>
      clear_of Script.ignored c = true /\
      exists es, locate fs c = Some (Dir es)
  | Opened c n =>
      exists ds name f,
        c = ds ++ [name] /\ n = Some (File f) /\
        locate fs c = Some (File f) /\
        Script.admits name = true /\ clear_of Script.ignored ds = true
  end.
Proof.
  apply (plan_sound script_pr Script.admits
                    (fun d => negb (mem d Script.ignored))
                    script_pr_In fs fs_wf).
Qed.

(** An admitted file below kept directories is opened, at its path. *)
Lemma file_event (ds : list str) (name : str) (f : file) :
  locate fs (ds ++ [name]) = Some (File f) ->
  Script.admits name = true -> clear_of Script.ignored ds = true ->
  In (Open (joins directory (ds ++ [name]))
           (open_read Strict (Some (File f))))
     (script_events directory fs).
Proof.
  intros L Ha Hc. unfold script_events. apply in_map_iff.
  exists (Opened (ds ++ [name]) (Some (File f))). split; [reflexivity|].
  apply (plan_complete script_pr Script.admits
                       (fun d => negb (mem d Script.ignored))
                       script_pr_In ds fs name f fs_wf L Ha Hc).
Qed.

(** An event at the path of a node of the tree is a step on that node. *)
Lemma event_node (e : event) (c : list str) (n : node) :
  In e (script_events directory fs) ->
  locate fs c = Some n ->
  path_of e = joins directory c ->
  match e with
  | Scandir _ => clear_of Script.ignored c = true /\ is_file n = false
  | Open _ r =>
      exists ds name f,
        c = ds ++ [name] /\ n = File f /\
        Script.admits name = true /\ clear_of Script.ignored ds = true /\
        r = open_read Strict (Some (File f))
  end.
Proof.
  intros He L Hp. unfold script_events in He. apply in_map_iff in He.
  destruct He as (i & <- & Hi). pose proof (script_sound i Hi) as S.
  pose proof (locate_names_ok c fs n fs_wf L) as Okc.
  destruct i as [c' | c' n']; simpl in Hp |- *.
  - destruct S as [Hc (es & L')].
    pose proof (locate_names_ok c' fs _ fs_wf L') as Okc'.
    apply joins_inj in Hp; try assumption. subst c'.
    rewrite L in L'. injection L' as ->. now split.
  - destruct S as (ds & name & f & -> & -> & L' & Ha & Hc).
    pose proof (locate_names_ok _ fs _ fs_wf L') as Okc'.
    apply joins_inj in Hp; try assumption. subst c.
    rewrite L in L'. injection L' as ->. now exists ds, name, f.
Qed.

Lemma script_opened_NoDup : NoDup (opened (script_events directory fs)).
Proof.
  unfold script_events. rewrite opened_render.
  apply NoDup_map_NoDup_ForallPairs.
  - intros c1 c2 H1 H2 E.
    apply opened_chains_In in H1, H2.
    destruct H1 as (n1 & H1), H2 as (n2 & H2).
    apply script_sound in H1, H2.
    destruct H1 as (? & ? & ? & _ & _ & L1 & _).
    destruct H2 as (? & ? & ? & _ & _ & L2 & _).
    apply (joins_inj directory); try assumption.
    + exact (locate_names_ok c1 fs _ fs_wf L1).
    + exact (locate_names_ok c2 fs _ fs_wf L2).
  - apply (plan_opened_NoDup script_pr Script.admits
             (fun d => negb (mem d Script.ignored))
             script_pr_NoDup script_pr_In fs fs_wf).
Qed.

End ScanFacts.

(** ** Taking a file out of the tree *)

Section RemoveFacts.

Variable term : str.

Lemma remove_at_Dir (es : list (str * node)) (c : str) (rest : list str) :
  remove_at (Dir es) (c :: rest) = Dir (edit_entries c rest es).
Proof.
  simpl. f_equal. induction es as [|[n t'] l IH]; [reflexivity|].
  simpl. destruct (str_eqb c n); [reflexivity | now rewrite IH].
Qed.

Lemma flat_map_ext_In {A B} (g h : A -> list B) (l : list A) :
  (forall a, In a l -> g a = h a) -> flat_map g l = flat_map h l.
Proof.
  induction l as [|a l IH]; simpl; intros H; [reflexivity|].
  rewrite (H a) by now left. f_equal. apply IH. intros x Hx. apply H.
  now right.
Qed.

Lemma found_Dir (top : str) (es : list (str * node)) :
  found term top (Dir es) =
  flat_map (fun f =>
              if Script.admits f then
                hits term [Open (path_join top f)
                                (open_read Strict (lookup es f))]
              else [])
           (filenames es) ++
  flat_map (fun d => match lookup es d with
                     | Some t' => found term (path_join top d) t'
                     | None => []
                     end)
           (script_pr (dirnames es)).
Proof.
  unfold found. rewrite plan_Dir. cbn [map].
  change (render Strict top (Listed [])) with (Scandir top).
  rewrite hits_scandir, map_app, hits_app. f_equal.
  - generalize (filenames es) as l.
    induction l as [|f l IH]; [reflexivity|]. cbn [filter flat_map].
    destruct (Script.admits f); [|exact IH].
    cbn [map]. change (?x :: ?l) with ([x] ++ l) at 1.
    rewrite hits_app. f_equal. exact IH.
  - generalize (script_pr (dirnames es)) as l.
    induction l as [|d l IH]; [reflexivity|]. cbn [flat_map].
    rewrite map_app, hits_app, IH. f_equal.
    destruct (lookup es d); [|reflexivity].
    rewrite map_map. now rewrite (map_ext _ _ (render_below Strict top d)).
Qed.

Lemma file_or_dir (es : list (str * node)) (x : str) :
  NoDup (map fst es) -> In x (filenames es) -> In x (dirnames es) -> False.
Proof.
  intros Hnd Hf Hd. apply filenames_In in Hf. apply dirnames_In in Hd.
  destruct Hf as (t1 & H1 & F1), Hd as (t2 & H2 & F2).
  apply (lookup_first es x t1 Hnd) in H1.
  apply (lookup_first es x t2 Hnd) in H2. congruence.
Qed.

(** Removing a file entry. *)
Lemma edit_last_lookup (c x : str) (es : list (str * node)) :
  x <> c -> lookup (edit_entries c [] es) x = lookup es x.
Proof.
  intros Hx. induction es as [|[n t'] l IH]; [reflexivity|]. simpl.
  destruct (str_eqb c n) eqn:E.
  - apply str_eqb_eq in E. subst n.
    apply str_eqb_neq in Hx. now rewrite Hx.
  - simpl. now rewrite IH.
Qed.

Lemma edit_last_dirnames (c : str) (f : file) (es : list (str * node)) :
  lookup es c = Some (File f) ->
  dirnames (edit_entries c [] es) = dirnames es.
Proof.
  unfold dirnames.
  induction es as [|[n t'] l IH]; [reflexivity|]. simpl.
  destruct (str_eqb c n) eqn:E.
  - intros [= ->]. reflexivity.
  - intros L. simpl. destruct (negb (is_file t')); simpl; now rewrite IH.
Qed.

Lemma edit_last_files {B} (g h : str -> list B) (c : str)
    (es : list (str * node)) :
  NoDup (map fst es) -> g c = [] ->
  (forall x, x <> c -> h x = g x) ->
  flat_map h (filenames (edit_entries c [] es)) = flat_map g (filenames es).
Proof.
  intros Hnd Hc Hx. unfold filenames.
  induction es as [|[n t'] l IH]; [reflexivity|]. simpl.
  inversion Hnd as [|? ? Hn Hnd']; subst.
  destruct (str_eqb c n) eqn:E.
  - apply str_eqb_eq in E. subst n.
    assert (R : flat_map h (map fst (filter (fun e => is_file (snd e)) l)) =
                flat_map g (map fst (filter (fun e => is_file (snd e)) l))).
    { apply flat_map_ext_In. intros a Ha. apply Hx. intros ->.
      apply Hn. apply in_map_iff in Ha. destruct Ha as (e & <- & He).
      apply filter_In in He. apply in_map. tauto. }
    rewrite R. destruct (is_file t'); simpl; [now rewrite Hc | reflexivity].
  - apply str_eqb_neq in E. simpl. destruct (is_file t'); simpl.
    + rewrite (IH Hnd'). f_equal. apply Hx. congruence.
    + apply (IH Hnd').
Qed.

(** Replacing a directory entry by an edited directory. *)
Lemma edit_step_lookup (c c2 x : str) (rest : list str) (t' : node)
    (es : list (str * node)) :
  lookup es c = Some t' ->
  lookup (edit_entries c (c2 :: rest) es) x =
  if str_eqb x c then Some (remove_at t' (c2 :: rest)) else lookup es x.
Proof.
  induction es as [|[n u] l IH]; [discriminate|]. simpl.
  destruct (str_eqb c n) eqn:E.
  - intros [= ->]. apply str_eqb_eq in E. subst n. simpl.
    destruct (str_eqb x c); reflexivity.
  - intros L. simpl. rewrite (IH L).
    destruct (str_eqb x n) eqn:E1, (str_eqb x c) eqn:E2; try reflexivity.
    apply str_eqb_eq in E1, E2. subst. now rewrite str_eqb_refl in E.
Qed.

Lemma edit_step_names (c c2 : str) (rest : list str)
    (sub : list (str * node)) (es : list (str * node)) :
  lookup es c = Some (Dir sub) ->
  filenames (edit_entries c (c2 :: rest) es) = filenames es /\
  dirnames (edit_entries c (c2 :: rest) es) = dirnames es.
Proof.
  unfold filenames, dirnames.
  induction es as [|[n u] l IH]; [discriminate|]. simpl.
  destruct (str_eqb c n) eqn:E.
  - intros [= ->]. cbn [filter snd is_file negb remove_at]. now split.
  - intros L. destruct (IH L) as [IH1 IH2]. simpl.
    destruct (is_file u); simpl; rewrite ?IH1, ?IH2; now split.
Qed.

(** A scan finds the same paths with and without a file that cannot be
    read. *)
Lemma found_without (chain : list str) :
  forall t top f e,
    wf t = true -> locate t chain = Some (File f) ->
    open_read Strict (Some (File f)) = inl e ->
    found term top (remove_at t chain) = found term top t.
Proof.
  induction chain as [|c rest IH]; intros t top f e W L R.
  - destruct t; reflexivity.
  - destruct t as [f' | | es]; try discriminate.
    rewrite locate_cons in L.
    destruct (lookup es c) as [t'|] eqn:Lk; [|discriminate].
    pose proof W as W0. apply wf_Dir in W. destruct W as (Hnd & Hok & Hall).
    rewrite remove_at_Dir, !found_Dir.
    destruct rest as [|c2 rest].
    + assert (t' = File f) by (destruct t'; simpl in L; congruence).
      subst t'.
      rewrite (edit_last_dirnames c f es Lk). f_equal.
      * apply (edit_last_files _ _ c es Hnd).
        -- rewrite Lk, R. now destruct (Script.admits c).
        -- intros x Hx. now rewrite (edit_last_lookup c x es Hx).
      * apply flat_map_ext_In. intros d Hd.
        rewrite edit_last_lookup; [reflexivity|]. intros ->.
        apply script_pr_In in Hd; [|now apply names_filter_NoDup].
        apply (file_or_dir es c Hnd); [|tauto].
        apply filenames_In. exists (File f). split; [|reflexivity].
        now apply lookup_In.
    + destruct t' as [f' | | sub]; try discriminate.
      destruct (edit_step_names c c2 rest sub es Lk) as [-> ->].
      destruct (wf_lookup es c (Dir sub) W0 Lk) as [W' _].
      f_equal.
      * apply flat_map_ext_In. intros x Hx.
        rewrite (edit_step_lookup c c2 x rest (Dir sub) es Lk).
        destruct (str_eqb x c) eqn:E; [|reflexivity].
        apply str_eqb_eq in E. subst x. exfalso.
        apply (file_or_dir es c Hnd Hx).
        apply dirnames_In. exists (Dir sub). split; [|reflexivity].
        now apply lookup_In.
      * apply flat_map_ext_In. intros d Hd.
        rewrite (edit_step_lookup c c2 d rest (Dir sub) es Lk).
        destruct (str_eqb d c) eqn:E; [|reflexivity].
        apply str_eqb_eq in E. subst d. rewrite Lk.
        exact (IH (Dir sub) (path_join top c) f e W' L R).
Qed.

End RemoveFacts.

(** ** Suffixes, decoding, module runs *)

Section RunFacts.

Lemma endswith_spec (p s : str) :
  endswith p s = true <-> exists stem, s = stem ++ p.
Proof.
  unfold endswith. rewrite startswith_app. split.
  - intros (post & E). exists (rev post).
    apply (f_equal (@rev N)) in E.
    now rewrite rev_involutive, rev_app_distr, rev_involutive in E.
  - intros (stem & ->). exists (rev stem). apply rev_app_distr.
Qed.

Lemma endswith_any_spec (ps : list str) (s : str) :
  endswith_any ps s = true <-> exists p stem, In p ps /\ s = stem ++ p.
Proof.
  unfold endswith_any. rewrite existsb_exists. split.
  - intros (p & Hp & E). apply endswith_spec in E. destruct E as (stem & E).
    now exists p, stem.
  - intros (p & stem & Hp & E). exists p. split; [assumption|].
    apply endswith_spec. now exists stem.
Qed.

(** With [errors='ignore'] decoding never fails. *)
Lemma decode_ignore_total (bs : list N) :
  forall pending, decode_from Ignore pending bs <> None.
Proof.
  induction bs as [|b bs IH]; intros pending.
  - destruct pending; discriminate.
  - assert (Fresh :
      match classify b with
      | Single cp => option_map (cons cp) (decode_from Ignore None bs)
      | Multi rest lo hi acc => decode_from Ignore (Some (rest, lo, hi, acc)) bs
      | BadStart => decode_from Ignore None bs
      end <> None).
    { destruct (classify b); try apply IH.
      pose proof (IH None). destruct (decode_from Ignore None bs);
        [discriminate | contradiction]. }
    destruct pending as [[[[rest lo] hi] acc]|]; cbn [decode_from].
    + destruct ((lo <=? b)%N && (b <=? hi)%N); [|exact Fresh].
      destruct rest; [|apply IH].
      pose proof (IH None). destruct (decode_from Ignore None bs);
        [discriminate | contradiction].
    + exact Fresh.
Qed.

Lemma open_read_ignore (f : file) :
  readable f = true -> exists content, open_read Ignore (Some (File f)) = inr content.
Proof.
  intros R. unfold open_read, utf8_decode. rewrite R.
  pose proof (decode_ignore_total (map Byte.to_N (data f)) None) as T.
  destruct (decode_from Ignore None (map Byte.to_N (data f))) as [s|];
    [now exists (universal_newlines s) | contradiction].
Qed.

Lemma script_layout_ok : check_layout [0] false 0 Script.layout = None.
Proof. reflexivity. Qed.

Lemma deep_layout_error : check_layout [0] false 0 Deep.layout = Some 14.
Proof. reflexivity. Qed.

Lemma report_extend (results : list str) (w : world) :
  Script.report results w = extend w [] (map FoundIn results).
Proof.
  unfold Script.report. revert w.
  induction results as [|r results IH]; intros w; simpl.
  - now rewrite extend_nil.
  - rewrite IH, print_extend, extend_extend. reflexivity.
Qed.

(** The module search_script.py runs both searches and exits normally;
    what it does and prints is the same in every world. *)
Lemma script_main_run (fs : node) :
  exists evs out, forall w, Script.main fs w = Exit0 (extend w evs out).
Proof.
  set (e := script_events (lit ".") fs).
  exists (e ++ e).
  exists ([Say (lit "Searching for 'next/document'...")] ++ complaints e ++
          map FoundIn (hits (lit "next/document") e) ++
          [Say (10%N :: lit "Searching for '<Html'...")] ++ complaints e ++
          map FoundIn (hits (lit "<Html") e)).
  intros w. unfold Script.main, run_module. rewrite script_layout_ok.
  unfold Script.body. rewrite search_files_runs. fold e.
  cbv beta iota zeta. rewrite search_files_runs. fold e.
  rewrite !report_extend, !print_extend, !extend_extend.
  f_equal. f_equal; simpl; rewrite ?app_nil_r, <- ?app_assoc; reflexivity.
Qed.

Lemma script_main_completes (fs : node) (w : world) :
  exit_status (Script.main fs w) = 0.
Proof.
  destruct (script_main_run fs) as (evs & out & H). now rewrite H.
Qed.

Lemma deep_main_run (fs : node) (w : world) :
  Deep.main fs w = Uncaught (IndentationError 14) w.
Proof.
  unfold Deep.main, run_module. now rewrite deep_layout_error.
Qed.

End RunFacts.

(** ** What a scan finds for a file of the tree *)

Section FileFacts.

Variables (directory : str) (fs : node) (term : str).
Variables (ds : list str) (name : str) (f : file).
Hypothesis fs_wf : wf fs = true.
Hypothesis located : locate fs (ds ++ [name]) = Some (File f).

Lemma open_event (r : exn + str) :
  In (Open (joins directory (ds ++ [name])) r) (script_events directory fs) <->
  Script.admits name = true /\ clear_of Script.ignored ds = true /\
  r = open_read Strict (Some (File f)).
Proof.
  split.
  - intros H.
    pose proof (event_node directory fs fs_wf _ _ _ H located eq_refl) as E.
    simpl in E. destruct E as (ds' & name' & f' & E & Ef & Ha & Hc & Hr).
    apply app_inj_tail in E. destruct E as [-> ->]. injection Ef as ->.
    auto.
  - intros (Ha & Hc & ->). now apply file_event.
Qed.

Lemma found_iff :
  In (joins directory (ds ++ [name]))
     (hits term (script_events directory fs)) <->
  Script.admits name = true /\ clear_of Script.ignored ds = true /\
  exists content,
    open_read Strict (Some (File f)) = inr content /\
    contains term content = true.
Proof.
  rewrite hits_In. split.
  - intros (content & H & C). apply open_event in H.
    destruct H as (Ha & Hc & Hr). repeat split; try assumption.
    now exists content.
  - intros (Ha & Hc & content & Hr & C). exists content. split; [|assumption].
    apply open_event. rewrite Hr. auto.
Qed.

Lemma no_listing :
  ~ In (Scandir (joins directory (ds ++ [name])))
       (script_events directory fs).
Proof.
  intros H.
  pose proof (event_node directory fs fs_wf _ _ _ H located eq_refl) as E.
  simpl in E. destruct E as [_ E]. discriminate.
Qed.

End FileFacts.

Section BlockFacts.

Lemma line_hits_no_match (t term path : str) (lines : list str) :
  ~ In (MatchIn t path) (Deep.line_hits term lines).
Proof.
  unfold Deep.line_hits. rewrite in_flat_map. intros ([i l] & _ & H).
  simpl in H. destruct (contains term l); [|contradiction].
  destruct H as [H | []]. discriminate.
Qed.

Lemma prints_extend (l : list output) (w : world) :
  fold_left (fun w o => print o w) l w = extend w [] l.
Proof.
  revert w. induction l as [|o l IH]; intros w; simpl.
  - now rewrite extend_nil.
  - now rewrite IH, print_extend, extend_extend.
Qed.

(** Lines 17 to 27 when the file can be read. *)
Lemma file_block_read (root file : str) (resolve : str -> option node)
    (w : world) (text : str) :
  open_read Ignore (resolve file) = inr text ->
  Deep.file_block root file resolve w =
  extend w [Open (path_join root file) (inr text)]
         (flat_map (Deep.term_block (path_join root file) text)
                   Deep.search_terms).
Proof.
  intros R. unfold Deep.file_block. rewrite R.
  rewrite prints_extend, log_extend, extend_extend. reflexivity.
Qed.

Lemma clear_of_In (ignored c : list str) (d : str) :
  clear_of ignored c = true -> In d c -> In d ignored -> False.
Proof.
  unfold clear_of. rewrite forallb_forall. intros H Hc Hi.
  specialize (H d Hc). apply negb_true_iff in H.
  apply mem_not_In in H. contradiction.
Qed.

(** What search_files finds depends on the files of the tree only. *)
Lemma hits_same_files (directory term : str) (t1 t2 : node) (p : str) :
  wf t1 = true -> wf t2 = true -> same_files t1 t2 ->
  In p (hits term (script_events directory t1)) ->
  In p (hits term (script_events directory t2)).
Proof.
  intros W1 W2 S H. apply hits_In in H. destruct H as (content & He & C).
  unfold script_events in He. apply in_map_iff in He.
  destruct He as (i & Hr & Hi).
  pose proof (script_sound t1 W1 i Hi) as Hs.
  destruct i as [c | c n]; [discriminate|].
  destruct Hs as (ds & name & f & -> & -> & L & Ha & Hc).
  simpl in Hr. injection Hr as <- Hr.
  assert (L2 : locate t2 (ds ++ [name]) = Some (File f)).
  { specialize (S (ds ++ [name])). unfold file_at in S. rewrite L in S.
    destruct (locate t2 (ds ++ [name])) as [[f2 | | es]|]; try discriminate.
    now injection S as ->. }
  apply (found_iff directory t2 term ds name f W2 L2).
  repeat split; try assumption. now exists content.
Qed.

Lemma shuffled_same_files : same_files sample shuffled.
Proof.
  intros [|c rest]; [reflexivity|]. unfold file_at, sample, shuffled.
  rewrite !locate_cons. cbn [lookup].
  destruct (str_eqb c (lit "a")) eqn:Ea;
    destruct (str_eqb c (lit "node_modules")) eqn:En;
    destruct (str_eqb c (lit "logo.png")) eqn:El;
    try reflexivity;
    repeat match goal with
           | H : str_eqb _ _ = true |- _ => apply str_eqb_eq in H
           end;
    subst; discriminate.
Qed.

End BlockFacts.

(** ** Sample runs *)

Section Samples.

Example decode_two_bytes :
  utf8_decode Strict [xc3; xa9] = Some [233%N].
Proof. reflexivity. Qed.

Example decode_three_bytes :
  utf8_decode Strict [xe2; x82; xac] = Some [8364%N].
Proof. reflexivity. Qed.

Example decode_four_bytes :
  utf8_decode Strict [xf0; x9f; x98; x80] = Some [128512%N].
Proof. reflexivity. Qed.

Example decode_overlong : utf8_decode Strict [xc0; x80] = None.
Proof. reflexivity. Qed.

Example decode_surrogate : utf8_decode Strict [xed; xa0; x80] = None.
Proof. reflexivity. Qed.

Example decode_truncated : utf8_decode Strict [x61; xe2; x82] = None.
Proof. reflexivity. Qed.

Example decode_ignore_resumes :
  utf8_decode Ignore [x61; xe2; x28; xff; x62; xe2; x82] = Some (lit "a(b").
Proof. reflexivity. Qed.

Example newlines_translated :
  universal_newlines (lit "a" ++ [13; 10] ++ lit "b" ++ [13] ++ lit "c")%N =
  lit "a" ++ [10%N] ++ lit "b" ++ [10%N] ++ lit "c".
Proof. reflexivity. Qed.

Example splitlines_sample :
  splitlines (lit "a" ++ [10; 10] ++ lit "b" ++ [13; 10] ++ lit "c" ++ [10])%N =
  [lit "a"; []; lit "b"; lit "c"].
Proof. reflexivity. Qed.

Example strip_sample : strip (9%N :: lit "  x y " ++ [10%N]) = lit "x y".
Proof. reflexivity. Qed.

Example join_sample :
  path_join (lit ".") (lit "a") = lit "./a" /\
  path_join (lit "src/") (lit "a") = lit "src/a" /\
  path_join [] (lit "a") = lit "a" /\
  path_join (lit "x") (lit "/a") = lit "/a".
Proof. repeat split. Qed.

Example suffix_sample :
  Script.admits (lit "page.tsx") = true /\
  Script.admits (lit ".ts") = true /\
  Script.admits (lit "logo.png") = false /\
  Script.admits (lit "notes.tsx.bak") = false.
Proof. repeat split. Qed.

(** The scenario of the specification, for search_files: one match, and
    nothing below node_modules is listed or opened. *)
Example sample_scan :
  Script.search_files (lit ".") sample (lit "next/document") start =
  Ok [lit "./a/b.tsx"]
     {| events :=
          [ Scandir (lit ".");
            Scandir (lit "./a");
            Open (lit "./a/b.tsx")
                 (inr (lit "// page" ++ 10%N :: 10%N :: import_line ++ [10%N])) ];
        stdout := [] |}.
Proof. reflexivity. Qed.

Example troubled_scan :
  Script.search_files (lit ".") troubled (lit "next/document") start =
  Ok [lit "./a/b.tsx"]
     {| events :=
          [ Scandir (lit ".");
            Open (lit "./bad.ts") (inl UnicodeDecodeError);
            Open (lit "./locked.ts") (inl OSError);
            Scandir (lit "./a");
            Open (lit "./a/b.tsx")
                 (inr (lit "// page" ++ 10%N :: 10%N :: import_line ++ [10%N])) ];
        stdout :=
          [ CouldNotRead (lit "./bad.ts") UnicodeDecodeError;
            CouldNotRead (lit "./locked.ts") OSError ] |}.
Proof. reflexivity. Qed.

(** The per-file block of search_deep on a/b.tsx: two of the five terms
    occur, each on line 3. *)
Example sample_block :
  stdout (Deep.file_block (lit "./a") (lit "b.tsx")
            (lookup [(lit "b.tsx", File b_tsx)]) start) =
  [ MatchIn (lit "next/document") (lit "./a/b.tsx");
    LineHit 3 import_line;
    MatchIn (lit "from " ++ Deep.dquote :: lit "next/document" ++ [Deep.dquote])
            (lit "./a/b.tsx");
    LineHit 3 import_line ].
Proof. reflexivity. Qed.

End Samples.

(** * The claims *)

(** C1. For a file that a scan admits (its name ends in a source suffix
    and no directory above it is ignored) and decodes, search_files
    returns the path of the file if and only if the term is a literal
    substring of the decoded content, with no case folding and no
    pattern syntax; in particular a file without the term gives no
    match. The per-file block of search_deep prints a MATCH line for a
    term under the same condition; a run of search_deep.py itself admits
    and decodes no file. *)
Theorem C1_file_match_iff_substring :
  forall directory fs term w ds name f content,
    wf fs = true ->
    locate fs (ds ++ [name]) = Some (File f) ->
    Script.admits name = true ->
    clear_of Script.ignored ds = true ->
    open_read Strict (Some (File f)) = inr content ->
    (exists results w',
       Script.search_files directory fs term w = Ok results w' /\
       (In (joins directory (ds ++ [name])) results <->
        exists pre post, content = pre ++ term ++ post)) /\
    (forall root file resolve text t,
       open_read Ignore (resolve file) = inr text ->
       (In (MatchIn t (path_join root file))
           (stdout (Deep.file_block root file resolve start)) <->
        In t Deep.search_terms /\ exists pre post, text = pre ++ t ++ post)) /\
    (forall w0, final (Deep.main fs w0) = w0).
Proof.
  intros directory fs term w ds name f content W L Ha Hc R.
  split; [|split; [|intros w0; now rewrite deep_main_run]].
  - rewrite search_files_runs. eexists. eexists. split; [reflexivity|].
    rewrite (found_iff directory fs term ds name f W L).
    rewrite <- contains_substring. split.
    + intros (_ & _ & content' & R' & C). congruence.
    + intros C. repeat split; try assumption. now exists content.
  - intros root file resolve text t Rt.
    rewrite (file_block_read root file resolve start text Rt).
    cbn [extend stdout start app]. rewrite in_flat_map.
    rewrite <- contains_substring. unfold Deep.term_block. split.
    + intros (t' & Ht' & H). destruct (contains t' text) eqn:C;
        [|contradiction].
      destruct H as [H | H].
      * injection H as ->. now split.
      * now apply line_hits_no_match in H.
    + intros [Ht C]. exists t. split; [assumption|]. rewrite C. now left.
Qed.

Lemma C1_witness :
  (exists results w',
     Script.search_files (lit ".") sample (lit "next/document") start =
       Ok results w' /\
     (In (joins (lit ".") ([lit "a"] ++ [lit "b.tsx"])) results <->
      exists pre post,
        lit "// page" ++ 10%N :: 10%N :: import_line ++ [10%N] =
        pre ++ lit "next/document" ++ post)) /\
  contains (lit "Next/Document") import_line = false.
Proof.
  split; [|reflexivity].
  apply (C1_file_match_iff_substring
           (lit ".") sample (lit "next/document") start
           [lit "a"] (lit "b.tsx") b_tsx
           (lit "// page" ++ 10%N :: 10%N :: import_line ++ [10%N]));
    reflexivity.
Defined.

(** C9. search_deep.py does not run to completion: line 14 is indented
    under line 11, which opens no suite, so compiling the module raises
    IndentationError and the run ends with status 1 before any statement
    is executed. *)
Theorem C9_search_deep_stops_at_line_14 :
  forall fs w,
    Deep.main fs w = Uncaught (IndentationError 14) w /\
    exit_status (Deep.main fs w) = 1 /\
    exit_status (Script.main fs w) = 0.
Proof.
  intros fs w. rewrite deep_main_run. repeat split.
  apply script_main_completes.
Qed.

(** C7 as the specification has it fails: neither script admits files by
    the deny-list of binary and media extensions. *)
Lemma C7_counterexample :
  ~ ((forall file, Deep.admits file = deny_list_policy Deep.ignore_exts file) \/
     (forall file, Script.admits file = deny_list_policy Deep.ignore_exts file)).
Proof.
  intros [H | H]; specialize (H (lit "notes.txt")); vm_compute in H;
    discriminate.
Qed.

(** C7, amended. Both scripts accept a file by the same allow-list: the
    name must end in .ts, .tsx, .js or .jsx. The list ignore_exts of
    search_deep takes no part in the test. *)
Theorem C7_same_allow_list :
  forall file,
    Deep.admits file = Script.admits file /\
    (Script.admits file = true <->
     exists ext stem, In ext Script.source_exts /\ file = stem ++ ext).
Proof.
  intros file. split; [reflexivity|]. apply endswith_any_spec.
Qed.

(** C8. A scan leaves nothing behind that a later scan could see: the
    list that search_files returns does not depend on the world the call
    starts in, every run of search_script.py performs the same steps and
    prints the same lines, and every run of search_deep.py ends in the
    same way. As a set, the result of search_files depends only on the
    files of the tree, not on the order in which directories list them. *)
Theorem C8_scan_repeatable :
  forall fs,
    (forall directory term w1 w2,
       exists results w1' w2',
         Script.search_files directory fs term w1 = Ok results w1' /\
         Script.search_files directory fs term w2 = Ok results w2') /\
    (exists evs out,
       forall w,
         Script.main fs w = Exit0 (extend w evs out) /\
         Script.main fs (final (Script.main fs w)) =
           Exit0 (extend (extend w evs out) evs out)) /\
    (forall w, Deep.main fs (final (Deep.main fs w)) = Deep.main fs w) /\
    (forall fs' directory term w,
       wf fs = true -> wf fs' = true -> same_files fs fs' ->
       exists r w1 r' w2,
         Script.search_files directory fs term w = Ok r w1 /\
         Script.search_files directory fs' term w = Ok r' w2 /\
         forall p, In p r <-> In p r').
Proof.
  intros fs. split; [|split; [|split]].
  - intros directory term w1 w2. rewrite !search_files_runs.
    do 3 eexists. split; reflexivity.
  - destruct (script_main_run fs) as (evs & out & H).
    exists evs, out. intros w. rewrite !H. simpl. now split.
  - intros w. now rewrite !deep_main_run.
  - intros fs' directory term w W W' S. rewrite !search_files_runs.
    do 4 eexists. split; [reflexivity|]. split; [reflexivity|].
    intros p. split; apply hits_same_files; try assumption.
    intros chain. symmetry. apply S.
Qed.

Lemma C8_witness :
  exists r w1 r' w2,
    Script.search_files (lit ".") sample (lit "next/document") start = Ok r w1 /\
    Script.search_files (lit ".") shuffled (lit "next/document") start = Ok r' w2 /\
    forall p, In p r <-> In p r'.
Proof.
  refine (proj2 (proj2 (proj2 (C8_scan_repeatable sample)))
            shuffled (lit ".") (lit "next/document") start _ _ _).
  - reflexivity.
  - reflexivity.
  - exact shuffled_same_files.
Defined.

(** C2 as the specification has it fails for search_files: a/b.tsx holds
    the term once, on its third line, and a run of search_script.py
    prints one file-level record for it and no line-level record. *)
Lemma C2_counterexample :
  exists content,
    wf sample = true /\
    locate sample [lit "a"; lit "b.tsx"] = Some (File b_tsx) /\
    Script.admits (lit "b.tsx") = true /\
    open_read Strict (Some (File b_tsx)) = inr content /\
    occurrences (lit "next/document") content = 1 /\
    nth_error (splitlines content) 2 = Some import_line /\
    contains (lit "next/document") import_line = true /\
    ~ one_of_each (stdout (final (Script.main sample start))) 3.
Proof.
  eexists. do 3 (split; [reflexivity|]). split; [reflexivity|].
  do 3 (split; [reflexivity|]).
  intros [_ H]. vm_compute in H. discriminate.
Qed.

(** C2, amended. For an admitted file whose decoded content holds the
    term at exactly one position, search_files returns the path of the
    file exactly once and prints no line-level record. In search_deep the
    block of lines 22 to 27 prints, for such a content with the term on
    line k+1, one MATCH line and then one line-level record, numbered
    k+1. *)
Theorem C2_one_record_per_file :
  (forall directory fs term w ds name f content,
     wf fs = true ->
     locate fs (ds ++ [name]) = Some (File f) ->
     Script.admits name = true ->
     clear_of Script.ignored ds = true ->
     open_read Strict (Some (File f)) = inr content ->
     occurrences term content = 1 ->
     exists results w',
       Script.search_files directory fs term w = Ok results w' /\
       count_occ str_dec results (joins directory (ds ++ [name])) = 1 /\
       filter is_line_level (stdout w') = filter is_line_level (stdout w)) /\
  (forall path content term k line,
     occurrences term content = 1 ->
     nth_error (splitlines content) k = Some line ->
     contains term line = true ->
     Deep.term_block path content term =
       [MatchIn term path; LineHit (S k) (Deep.preview line)]).
Proof.
  split.
  - intros directory fs term w ds name f content W L Ha Hc R Hocc.
    rewrite search_files_runs. do 2 eexists. split; [reflexivity|]. split.
    + apply NoDup_count_occ'.
      * apply hits_NoDup. now apply script_opened_NoDup.
      * apply (found_iff directory fs term ds name f W L).
        repeat split; try assumption. exists content. split; [assumption|].
        apply occurrences_contains. lia.
    + cbn [extend stdout]. rewrite filter_app.
      assert (E : forall evs, filter is_line_level (complaints evs) = []).
      { induction evs as [|[q | q [x | c]] evs IH]; simpl; auto. }
      now rewrite E, app_nil_r.
  - intros path content term k line Hocc Hk Hc. unfold Deep.term_block.
    assert (C : contains term content = true)
      by (apply occurrences_contains; lia).
    rewrite C. f_equal. unfold Deep.line_hits.
    apply (line_hits_single term (splitlines content) 0 k line);
      try assumption.
    rewrite <- Hocc. apply splitlines_total.
Qed.

Lemma C2_witness :
  (exists results w',
     Script.search_files (lit ".") sample (lit "next/document") start =
       Ok results w' /\
     count_occ str_dec results (joins (lit ".") ([lit "a"] ++ [lit "b.tsx"])) = 1 /\
     filter is_line_level (stdout w') = filter is_line_level (stdout start)) /\
  Deep.term_block (lit "./a/b.tsx")
    (lit "// page" ++ 10%N :: 10%N :: import_line ++ [10%N])
    (lit "next/document") =
  [MatchIn (lit "next/document") (lit "./a/b.tsx");
   LineHit 3 (Deep.preview import_line)].
Proof.
  destruct C2_one_record_per_file as [A B]. split.
  - apply (A (lit ".") sample (lit "next/document") start
             [lit "a"] (lit "b.tsx") b_tsx
             (lit "// page" ++ 10%N :: 10%N :: import_line ++ [10%N]));
      reflexivity.
  - apply (B (lit "./a/b.tsx")
             (lit "// page" ++ 10%N :: 10%N :: import_line ++ [10%N])
             (lit "next/document") 2 import_line); reflexivity.
Defined.

(** C3. No match of search_files names a path inside a directory called
    node_modules or .next, and the scan neither lists such a directory
    nor opens anything in it: the names are taken out of [dirs] before
    the walk descends. Line 11 of search_deep removes every name of
    ignore_dirs from [dirs], and a run of search_deep.py lists, opens
    and prints nothing at all. *)
Theorem C3_ignored_directories_pruned :
  forall directory fs term w pre d post n,
    wf fs = true ->
    In d Script.ignored ->
    locate fs (pre ++ [d]) = Some n ->
    is_file n = false ->
    locate fs (pre ++ d :: post) <> None ->
    (exists results evs w',
       Script.search_files directory fs term w = Ok results w' /\
       events w' = events w ++ evs /\
       ~ In (joins directory (pre ++ d :: post)) results /\
       forall e, In e evs -> path_of e <> joins directory (pre ++ d :: post)) /\
    (forall dirs x, In x Deep.ignore_dirs -> ~ In x (Deep.prune dirs)) /\
    (forall w0, final (Deep.main fs w0) = w0).
Proof.
  intros directory fs term w pre d post n W Hd Ln Hn Lc.
  split; [|split; [|intros w0; now rewrite deep_main_run]].
  - rewrite search_files_runs. do 3 eexists. split; [reflexivity|].
    split; [reflexivity|].
    assert (Ev : forall e, In e (script_events directory fs) ->
                   path_of e <> joins directory (pre ++ d :: post)).
    { intros e He Hp.
      destruct (locate fs (pre ++ d :: post)) as [n'|] eqn:L';
        [|now elim Lc].
      pose proof (event_node directory fs W e _ n' He L' Hp) as E.
      destruct e as [q | q r].
      - destruct E as [Hc _].
        apply (clear_of_In Script.ignored (pre ++ d :: post) d Hc);
          [|assumption].
        apply in_or_app. right. now left.
      - destruct E as (ds & name & f & E & -> & Ha & Hc & _).
        destruct post as [|x post _] using rev_ind.
        + apply app_inj_tail in E. destruct E as [-> ->].
          rewrite Ln in L'. injection L' as ->. discriminate.
        + change (pre ++ d :: post ++ [x]) with (pre ++ (d :: post) ++ [x]) in E.
          rewrite app_assoc in E. apply app_inj_tail in E.
          destruct E as [<- _].
          apply (clear_of_In Script.ignored (pre ++ d :: post) d Hc);
            [|assumption].
          apply in_or_app. right. now left. }
    split; [|exact Ev].
    intros Hin. apply hits_In in Hin. destruct Hin as (content & He & _).
    now apply (Ev _ He).
  - intros dirs x Hx Hin. unfold Deep.prune in Hin.
    apply filter_In in Hin. destruct Hin as [_ Hin].
    apply negb_true_iff, mem_not_In in Hin. contradiction.
Qed.

Lemma C3_witness :
  exists results evs w',
    Script.search_files (lit ".") sample (lit "next/document") start =
      Ok results w' /\
    events w' = events start ++ evs /\
    ~ In (joins (lit ".") ([] ++ lit "node_modules" :: [lit "c.tsx"])) results /\
    forall e, In e evs ->
      path_of e <> joins (lit ".") ([] ++ lit "node_modules" :: [lit "c.tsx"]).
Proof.
  refine (proj1 (C3_ignored_directories_pruned
            (lit ".") sample (lit "next/document") start
            [] (lit "node_modules") [lit "c.tsx"]
            (Dir [(lit "c.tsx", File b_tsx)]) _ _ _ _ _));
    try reflexivity.
  - now left.
  - discriminate.
Defined.

(** C4. A file whose name ends in none of the admitted suffixes is
    never opened by search_files and never among its matches, whatever
    its bytes are; with such a name bound to [file], lines 14 and 15 of
    search_deep go on to the next file without opening or printing
    anything, and a run of search_deep.py opens and prints nothing at
    all. *)
Theorem C4_excluded_extension_skipped :
  forall directory fs term w ds name f,
    wf fs = true ->
    locate fs (ds ++ [name]) = Some (File f) ->
    Script.admits name = false ->
    (exists results evs w',
       Script.search_files directory fs term w = Ok results w' /\
       events w' = events w ++ evs /\
       ~ In (joins directory (ds ++ [name])) results /\
       forall e, In e evs -> path_of e <> joins directory (ds ++ [name])) /\
    (forall root dirs files resolve w0,
       Deep.dir_body (Some name) root dirs files resolve tt w0 =
       Ok (Deep.prune dirs, tt) w0) /\
    (forall w0, final (Deep.main fs w0) = w0).
Proof.
  intros directory fs term w ds name f W L Ha.
  split; [|split; [|intros w0; now rewrite deep_main_run]].
  - rewrite search_files_runs. do 3 eexists. split; [reflexivity|].
    split; [reflexivity|].
    assert (Ev : forall e, In e (script_events directory fs) ->
                   path_of e <> joins directory (ds ++ [name])).
    { intros e He Hp. destruct e as [q | q r]; simpl in Hp; subst q.
      - now apply (no_listing directory fs ds name f W L).
      - apply (open_event directory fs ds name f W L) in He.
        destruct He as [Ha' _]. congruence. }
    split; [|exact Ev].
    intros Hin. apply hits_In in Hin. destruct Hin as (content & He & _).
    now apply (Ev _ He).
  - intros root dirs files resolve w0. unfold Deep.dir_body.
    change (Deep.admits name) with (Script.admits name). now rewrite Ha.
Qed.

Lemma C4_witness :
  (exists results evs w',
     Script.search_files (lit ".") sample (lit "next/document") start =
       Ok results w' /\
     events w' = events start ++ evs /\
     ~ In (joins (lit ".") ([] ++ [lit "logo.png"])) results /\
     forall e, In e evs ->
       path_of e <> joins (lit ".") ([] ++ [lit "logo.png"])) /\
  contains (lit "next/document") (map Byte.to_N (data logo_png)) = true.
Proof.
  split; [|reflexivity].
  refine (proj1 (C4_excluded_extension_skipped
            (lit ".") sample (lit "next/document") start
            [] (lit "logo.png") logo_png _ _ _)); reflexivity.
Defined.

(** C5. A file that cannot be opened or decoded does not stop
    search_files: the call returns, the handler of line 20 reports the
    file if it was tried, and the matches are the ones the scan returns
    on the tree without that file. In search_deep a failure of [open] or
    [read] is caught by the handler of lines 28 and 29, decoding with
    errors='ignore' cannot fail, and a run of search_deep.py does the
    same with and without the file. *)
Theorem C5_failure_stays_with_the_file :
  forall directory fs term w ds name f e,
    wf fs = true ->
    locate fs (ds ++ [name]) = Some (File f) ->
    open_read Strict (Some (File f)) = inl e ->
    (exists results w1 w2,
       Script.search_files directory fs term w = Ok results w1 /\
       Script.search_files directory (remove_at fs (ds ++ [name])) term w =
         Ok results w2 /\
       (Script.admits name = true -> clear_of Script.ignored ds = true ->
        In (CouldNotRead (joins directory (ds ++ [name])) e) (stdout w1))) /\
    (forall root file resolve w0 e0,
       open_read Ignore (resolve file) = inl e0 ->
       Deep.file_block root file resolve w0 =
       print (ErrorReading (path_join root file) e0)
             (log (Open (path_join root file) (inl e0)) w0)) /\
    (forall g, readable g = true ->
       exists text, open_read Ignore (Some (File g)) = inr text) /\
    (forall w0,
       final (Deep.main (remove_at fs (ds ++ [name])) w0) =
       final (Deep.main fs w0)).
Proof.
  intros directory fs term w ds name f e W L R.
  split; [|split; [|split; [|intros w0; now rewrite !deep_main_run]]].
  - rewrite !search_files_runs. do 3 eexists. split; [reflexivity|]. split.
    + f_equal.
      exact (found_without term (ds ++ [name]) fs directory f e W L R).
    + intros Ha Hc. cbn [extend stdout]. apply in_or_app. right.
      apply complaints_In. rewrite <- R. now apply file_event.
  - intros root file resolve w0 e0 R0. unfold Deep.file_block.
    now rewrite R0.
  - apply open_read_ignore.
Qed.

Lemma C5_witness :
  exists results w1 w2,
    Script.search_files (lit ".") troubled (lit "next/document") start =
      Ok results w1 /\
    Script.search_files (lit ".")
      (remove_at troubled ([] ++ [lit "locked.ts"])) (lit "next/document")
      start = Ok results w2 /\
    (Script.admits (lit "locked.ts") = true ->
     clear_of Script.ignored [] = true ->
     In (CouldNotRead (joins (lit ".") ([] ++ [lit "locked.ts"])) OSError)
        (stdout w1)).
Proof.
  refine (proj1 (C5_failure_stays_with_the_file
            (lit ".") troubled (lit "next/document") start
            [] (lit "locked.ts") locked_ts OSError _ _ _)); reflexivity.
Defined.

(** C6. In one call of search_files every file that the directory and
    extension rules let through is opened exactly once, and no path
    occurs twice among the matches. *)
Theorem C6_each_file_opened_once :
  forall directory fs term w ds name f,
    wf fs = true ->
    locate fs (ds ++ [name]) = Some (File f) ->
    Script.admits name = true ->
    clear_of Script.ignored ds = true ->
    exists results evs w',
      Script.search_files directory fs term w = Ok results w' /\
      events w' = events w ++ evs /\
      count_occ str_dec (opened evs) (joins directory (ds ++ [name])) = 1 /\
      NoDup results.
Proof.
  intros directory fs term w ds name f W L Ha Hc.
  rewrite search_files_runs. do 3 eexists. split; [reflexivity|].
  split; [reflexivity|].
  pose proof (script_opened_NoDup directory fs W) as Hnd. split.
  - apply NoDup_count_occ'; [assumption|]. apply opened_In.
    exists (open_read Strict (Some (File f))).
    exact (file_event directory fs W ds name f L Ha Hc).
  - now apply hits_NoDup.
Qed.

Lemma C6_witness :
  exists results evs w',
    Script.search_files (lit ".") troubled (lit "next/document") start =
      Ok results w' /\
    events w' = events start ++ evs /\
    count_occ str_dec (opened evs)
      (joins (lit ".") ([lit "a"] ++ [lit "b.tsx"])) = 1 /\
    NoDup results.
Proof.
  apply (C6_each_file_opened_once
           (lit ".") troubled (lit "next/document") start
           [lit "a"] (lit "b.tsx") b_tsx); reflexivity.
Defined.

(** C10. search_files decodes strictly: an admitted file whose bytes are
    not well-formed UTF-8 raises UnicodeDecodeError in [read], the
    handler reports it, and the path is not among the matches, whatever
    the bytes of the file hold. *)
Theorem C10_undecodable_file_gives_no_match :
  forall directory fs term w ds name f,
    wf fs = true ->
    locate fs (ds ++ [name]) = Some (File f) ->
    Script.admits name = true ->
    clear_of Script.ignored ds = true ->
    readable f = true ->
    utf8_decode Strict (data f) = None ->
    exists results w',
      Script.search_files directory fs term w = Ok results w' /\
      ~ In (joins directory (ds ++ [name])) results /\
      In (CouldNotRead (joins directory (ds ++ [name])) UnicodeDecodeError)
         (stdout w').
Proof.
  intros directory fs term w ds name f W L Ha Hc Hr Hd.
  assert (R : open_read Strict (Some (File f)) = inl UnicodeDecodeError).
  { unfold open_read. now rewrite Hr, Hd. }
  rewrite search_files_runs. do 2 eexists. split; [reflexivity|]. split.
  - intros Hin. apply (found_iff directory fs term ds name f W L) in Hin.
    destruct Hin as (_ & _ & content & R' & _). congruence.
  - cbn [extend stdout]. apply in_or_app. right.
    apply complaints_In. rewrite <- R. now apply file_event.
Qed.

Lemma C10_witness :
  (exists results w',
     Script.search_files (lit ".") troubled (lit "next/document") start =
       Ok results w' /\
     ~ In (joins (lit ".") ([] ++ [lit "bad.ts"])) results /\
     In (CouldNotRead (joins (lit ".") ([] ++ [lit "bad.ts"]))
                      UnicodeDecodeError)
        (stdout w')) /\
  contains (lit "next/document") (map Byte.to_N (data latin1_ts)) = true.
Proof.
  split; [|reflexivity].
  apply (C10_undecodable_file_gives_no_match
           (lit ".") troubled (lit "next/document") start
           [] (lit "bad.ts") latin1_ts); reflexivity.
Defined.

(** * Further properties of the two scripts *)

Import More.

(** ** Reading a file *)

Section ReadFacts.

Lemma universal_newlines_bounded (n : nat) :
  forall s, List.length s <= n -> ~ In 13%N (universal_newlines s).
Proof.
  induction n as [|n IH]; intros s Hn.
  - destruct s; [intros [] | simpl in Hn; lia].
  - destruct s as [|c s']; [intros []|]. simpl in Hn.
    cbn [universal_newlines]. destruct (N.eqb c 13) eqn:E.
    + assert (R : ~ In 13%N
                match s' with
                | 10%N :: s'' => universal_newlines s''
                | _ => universal_newlines s'
                end).
      { destruct s' as [|c' s'']; [intros []|].
        assert (H1 : ~ In 13%N (universal_newlines (c' :: s'')))
          by (apply IH; lia).
        assert (H2 : ~ In 13%N (universal_newlines s''))
          by (apply IH; simpl in Hn; lia).
        destruct c' as [|p]; [exact H1|].
        do 4 (destruct p as [p|p|]; try exact H1). exact H2. }
      intros [H | H]; [discriminate | contradiction].
    + apply N.eqb_neq in E. intros [H | H]; [congruence|].
      revert H. apply IH. lia.
Qed.

Lemma universal_newlines_no_cr (s : str) : ~ In 13%N (universal_newlines s).
Proof. apply (universal_newlines_bounded (List.length s)). apply le_n. Qed.

Lemma open_read_no_cr (mode : errors) (n : option node) (content : str) :
  open_read mode n = inr content -> ~ In 13%N content.
Proof.
  unfold open_read. destruct n as [[f | | es]|]; try discriminate.
  destruct (readable f); [|discriminate].
  destruct (utf8_decode mode (data f)); [|discriminate].
  intros [= <-]. apply universal_newlines_no_cr.
Qed.

(** What decodes strictly decodes to the same text when errors are
    ignored. *)
Lemma decode_strict_ignore (bs : list N) :
  forall pending s,
    decode_from Strict pending bs = Some s ->
    decode_from Ignore pending bs = Some s.
Proof.
  induction bs as [|b bs IH]; intros pending s.
  - destruct pending; [discriminate | trivial].
  - cbn [decode_from].
    assert (Fresh :
      match classify b with
      | Single cp => option_map (cons cp) (decode_from Strict None bs)
      | Multi rest lo hi acc => decode_from Strict (Some (rest, lo, hi, acc)) bs
      | BadStart => None
      end = Some s ->
      match classify b with
      | Single cp => option_map (cons cp) (decode_from Ignore None bs)
      | Multi rest lo hi acc => decode_from Ignore (Some (rest, lo, hi, acc)) bs
      | BadStart => decode_from Ignore None bs
      end = Some s).
    { destruct (classify b); try discriminate; [|apply IH].
      destruct (decode_from Strict None bs) as [s0|] eqn:D; [|discriminate].
      now rewrite (IH None s0 D). }
    destruct pending as [[[[rest lo] hi] acc]|]; [|exact Fresh].
    destruct ((lo <=? b)%N && (b <=? hi)%N); [|discriminate].
    destruct rest; [|apply IH].
    destruct (decode_from Strict None bs) as [s0|] eqn:D; [|discriminate].
    now rewrite (IH None s0 D).
Qed.

Lemma event_content (directory : str) (fs : node) (p content : str) :
  In (Open p (inr content)) (script_events directory fs) ->
  ~ In 13%N content.
Proof.
  unfold script_events. rewrite in_map_iff.
  intros ([c | c n] & E & _); [discriminate|]. simpl in E.
  injection E as _ E. exact (open_read_no_cr Strict n content E).
Qed.

Lemma contains_In (needle hay : str) (c : N) :
  contains needle hay = true -> In c needle -> In c hay.
Proof.
  rewrite contains_substring. intros (pre & post & ->) H.
  apply in_or_app. right. apply in_or_app. now left.
Qed.

Lemma contains_trans (a b c : str) :
  contains a b = true -> contains b c = true -> contains a c = true.
Proof.
  rewrite !contains_substring.
  intros (p1 & q1 & ->) (p2 & q2 & ->).
  exists (p2 ++ p1), (q1 ++ q2). now rewrite <- !app_assoc.
Qed.

Lemma contains_nil (hay : str) : contains [] hay = true.
Proof. destruct hay; reflexivity. Qed.

End ReadFacts.

(** ** search_files: terms and paths *)

Section TermFacts.

Lemma nil_or_In {A} (l : list A) : l = [] \/ exists x, In x l.
Proof. destruct l as [|x l]; [now left | right; exists x; now left]. Qed.

Lemma decoded_In (p : str) (evs : list event) :
  In p (decoded evs) <-> exists content, In (Open p (inr content)) evs.
Proof.
  unfold decoded. rewrite in_flat_map. split.
  - intros (e & He & Hp). destruct e as [q | q [x | content]];
      simpl in Hp; try contradiction.
    destruct Hp as [-> | []]. now exists content.
  - intros (content & He). exists (Open p (inr content)).
    split; [assumption | now left].
Qed.

Lemma hits_nil_term (evs : list event) : hits [] evs = decoded evs.
Proof.
  unfold hits, decoded. apply flat_map_ext. intros [q | q [x | content]];
    try reflexivity.
  now rewrite contains_nil.
Qed.

(** The chains of a plan end in an accepted name, on any tree. *)
Lemma plan_names (pr : list str -> list str) (accept : str -> bool) :
  forall t c n, In (Opened c n) (plan pr accept t) ->
    exists ds name, c = ds ++ [name] /\ accept name = true.
Proof.
  intros t.
  induction t as [f | | es IH] using node_induction; intros c n Hi;
    try contradiction.
  rewrite plan_Dir in Hi. destruct Hi as [Hi | Hi]; [discriminate|].
  apply in_app_or in Hi. destruct Hi as [Hi | Hi].
  - apply in_map_iff in Hi. destruct Hi as (name & E & Hin).
    injection E as <- _. apply filter_In in Hin. now exists [], name.
  - apply in_flat_map in Hi. destruct Hi as (d & _ & Hi).
    destruct (lookup es d) as [t'|] eqn:Lk; [|contradiction].
    apply in_map_iff in Hi. destruct Hi as ([c' | c' n'] & E & Hi');
      [discriminate|].
    injection E as <- <-. rewrite Forall_forall in IH.
    destruct (IH _ (lookup_In es d t' Lk) c' n' Hi') as (ds & name & -> & Ha).
    now exists (d :: ds), name.
Qed.

Lemma path_join_suffix (a b : str) : exists pre, path_join a b = pre ++ b.
Proof.
  unfold path_join. destruct (startswith [slash] b); [now exists []|].
  destruct a as [|c a]; [now exists []|].
  destruct (endswith [slash] (c :: a)).
  - now exists (c :: a).
  - exists ((c :: a) ++ [slash]). now rewrite <- app_assoc.
Qed.

Lemma admits_path (top : str) (ds : list str) (name : str) :
  Script.admits name = true ->
  Script.admits (joins top (ds ++ [name])) = true.
Proof.
  unfold Script.admits. rewrite !endswith_any_spec.
  intros (ext & stem & Hext & ->).
  unfold joins. rewrite fold_left_app. cbn [fold_left].
  destruct (path_join_suffix (fold_left path_join ds top) (stem ++ ext))
    as (pre & ->).
  exists ext, (pre ++ stem). split; [assumption | now rewrite app_assoc].
Qed.

End TermFacts.

(** X2. A term that holds a carriage return is never found: text mode
    turns CR LF and CR into LF before line 17 looks for the term, so
    search_files returns the empty list on every tree, also for a file
    whose bytes hold the term. *)
Theorem X2_carriage_return_never_found :
  forall directory fs term w,
    In 13%N term ->
    exists w', Script.search_files directory fs term w = Ok [] w'.
Proof.
  intros directory fs term w Hcr. rewrite search_files_runs.
  eexists. f_equal.
  destruct (nil_or_In (hits term (script_events directory fs)))
    as [E | (p & Hp)]; [exact E|].
  apply hits_In in Hp. destruct Hp as (content & He & C).
  elim (event_content directory fs p content He).
  exact (contains_In term content 13%N C Hcr).
Qed.

Lemma X2_witness :
  (exists w', Script.search_files (lit ".") windows
                (lit "a" ++ 13%N :: 10%N :: lit "b") start = Ok [] w') /\
  contains (lit "a" ++ 13%N :: 10%N :: lit "b")
           (map Byte.to_N (data crlf_ts)) = true.
Proof.
  split; [|reflexivity].
  apply (X2_carriage_return_never_found
           (lit ".") windows (lit "a" ++ 13%N :: 10%N :: lit "b") start).
  right. now left.
Defined.

(** X3. The empty term is found in every file that can be read: the
    matches of search_files for the empty string are the paths of all
    the files it opened and decoded, in the order of the walk. *)
Theorem X3_empty_term_finds_every_readable_file :
  forall directory fs w,
    exists results evs w',
      Script.search_files directory fs [] w = Ok results w' /\
      events w' = events w ++ evs /\
      results = decoded evs /\
      forall p, In p results <-> exists content, In (Open p (inr content)) evs.
Proof.
  intros directory fs w. rewrite search_files_runs. do 3 eexists.
  split; [reflexivity|]. split; [reflexivity|].
  split; [apply hits_nil_term|].
  intros p. rewrite hits_nil_term. apply decoded_In.
Qed.

(** X4. A file found for a term is found for every piece of that term:
    when [short] is a substring of [long], the matches of search_files
    for [long] are among its matches for [short], and the block of
    search_deep that prints MATCH for [long] prints MATCH for [short]
    when both are search terms. *)
Theorem X4_longer_term_finds_less :
  forall short long,
    contains short long = true ->
    (forall directory fs w,
       exists r1 w1 r2 w2,
         Script.search_files directory fs short w = Ok r1 w1 /\
         Script.search_files directory fs long w = Ok r2 w2 /\
         incl r2 r1) /\
    (forall path content,
       In short Deep.search_terms ->
       In (MatchIn long path)
          (flat_map (Deep.term_block path content) Deep.search_terms) ->
       In (MatchIn short path)
          (flat_map (Deep.term_block path content) Deep.search_terms)).
Proof.
  intros short long Hsub. split.
  - intros directory fs w. rewrite !search_files_runs. do 4 eexists.
    split; [reflexivity|]. split; [reflexivity|].
    intros p Hp. apply hits_In in Hp. destruct Hp as (content & He & C).
    apply hits_In. exists content. split; [assumption|].
    exact (contains_trans short long content Hsub C).
  - intros path content Hs Hl. apply in_flat_map in Hl.
    destruct Hl as (t & Ht & Hl). unfold Deep.term_block in Hl.
    destruct (contains t content) eqn:C; [|contradiction].
    destruct Hl as [E | Hl]; [|now apply line_hits_no_match in Hl].
    injection E as ->. apply in_flat_map. exists short.
    split; [assumption|]. unfold Deep.term_block.
    rewrite (contains_trans short long content Hsub C). now left.
Qed.

Lemma X4_witness :
  (exists r1 w1 r2 w2,
     Script.search_files (lit ".") sample (lit "next/document") start = Ok r1 w1 /\
     Script.search_files (lit ".") sample import_line start = Ok r2 w2 /\
     incl r2 r1) /\
  In (MatchIn (lit "next/document") (lit "./a/b.tsx"))
     (flat_map (Deep.term_block (lit "./a/b.tsx") import_line)
               Deep.search_terms).
Proof.
  destruct (X4_longer_term_finds_less
              (lit "next/document")
              (lit "from " ++ Deep.dquote :: lit "next/document" ++ [Deep.dquote])
              eq_refl) as [_ B].
  destruct (X4_longer_term_finds_less (lit "next/document") import_line eq_refl)
    as [A _].
  split.
  - apply A.
  - apply B.
    + now left.
    + apply in_flat_map.
      exists (lit "from " ++ Deep.dquote :: lit "next/document" ++ [Deep.dquote]).
      split.
      * right. right. right. left. reflexivity.
      * left. reflexivity.
Defined.

(** X5. Every path that search_files opens, and so every path it
    returns, itself ends in .ts, .tsx, .js or .jsx, on any tree and for
    any directory argument. *)
Theorem X5_paths_end_in_a_source_suffix :
  forall directory fs term w,
    exists results evs w',
      Script.search_files directory fs term w = Ok results w' /\
      events w' = events w ++ evs /\
      (forall p r, In (Open p r) evs -> Script.admits p = true) /\
      (forall p, In p results -> Script.admits p = true).
Proof.
  intros directory fs term w. rewrite search_files_runs. do 3 eexists.
  split; [reflexivity|]. split; [reflexivity|].
  assert (Ev : forall p r, In (Open p r) (script_events directory fs) ->
                 Script.admits p = true).
  { intros p r H. unfold script_events in H. apply in_map_iff in H.
    destruct H as ([c | c n] & E & Hi); [discriminate|].
    injection E as <- _.
    destruct (plan_names script_pr Script.admits fs c n Hi)
      as (ds & name & -> & Ha).
    now apply admits_path. }
  split; [exact Ev|].
  intros p Hp. apply hits_In in Hp. destruct Hp as (content & He & _).
  exact (Ev p _ He).
Qed.

(** X6. Two different entries of a tree never get the same path: the
    joins of line 13 keep apart whatever the directory listings keep
    apart, so a returned path names one file. *)
Theorem X6_different_files_different_paths :
  forall directory fs c1 c2 n1 n2,
    wf fs = true ->
    locate fs c1 = Some n1 ->
    locate fs c2 = Some n2 ->
    c1 <> c2 ->
    joins directory c1 <> joins directory c2.
Proof.
  intros directory fs c1 c2 n1 n2 W L1 L2 Hne E. apply Hne.
  apply (joins_inj directory); try assumption.
  - exact (locate_names_ok c1 fs n1 W L1).
  - exact (locate_names_ok c2 fs n2 W L2).
Qed.

Lemma X6_witness :
  joins (lit ".") [lit "a"; lit "b.tsx"] <>
  joins (lit ".") [lit "node_modules"; lit "c.tsx"].
Proof.
  apply (X6_different_files_different_paths
           (lit ".") sample [lit "a"; lit "b.tsx"]
           [lit "node_modules"; lit "c.tsx"] (File b_tsx) (File b_tsx));
    try reflexivity.
  discriminate.
Defined.

(** X7. What search_files can read, search_deep reads as the same text:
    when the strict decoding of line 15 of search_script.py succeeds,
    the errors='ignore' decoding of line 19 of search_deep.py gives the
    same content. *)
Theorem X7_strict_and_ignore_agree :
  forall target content,
    open_read Strict target = inr content ->
    open_read Ignore target = inr content.
Proof.
  intros target content. unfold open_read, utf8_decode.
  destruct target as [[f | | es]|]; try discriminate.
  destruct (readable f); [|discriminate].
  destruct (decode_from Strict None (map Byte.to_N (data f))) as [s|] eqn:D;
    [|discriminate].
  now rewrite (decode_strict_ignore _ None s D).
Qed.

Lemma X7_witness :
  open_read Ignore (Some (File b_tsx)) =
  inr (lit "// page" ++ 10%N :: 10%N :: import_line ++ [10%N]).
Proof.
  apply (X7_strict_and_ignore_agree (Some (File b_tsx))). reflexivity.
Defined.

(** ** search_files: the two removes of lines 6 to 9 *)

Section PruneFacts.

Lemma str_eqb_sym (a b : str) : str_eqb a b = str_eqb b a.
Proof.
  destruct (str_eqb a b) eqn:E1, (str_eqb b a) eqn:E2; try reflexivity.
  - apply str_eqb_eq in E1. subst. now rewrite str_eqb_refl in E2.
  - apply str_eqb_eq in E2. subst. now rewrite str_eqb_refl in E1.
Qed.

Lemma drop_first_count (x d : str) (l : list str) :
  count_occ str_dec (drop_first x l) d =
  count_occ str_dec l d - (if str_eqb x d then 1 else 0).
Proof.
  induction l as [|y l IH]; simpl.
  - now destruct (str_eqb x d).
  - destruct (str_eqb x y) eqn:E.
    + apply str_eqb_eq in E. subst y.
      destruct (str_dec x d) as [-> | Hne].
      * rewrite str_eqb_refl. lia.
      * apply str_eqb_neq in Hne. rewrite Hne. lia.
    + simpl. rewrite IH. apply str_eqb_neq in E.
      destruct (str_dec y d) as [-> | Hne]; [|reflexivity].
      apply str_eqb_neq in E. rewrite E. lia.
Qed.

Lemma drop_first_keeps (x d : str) (l : list str) :
  In d l -> d <> x -> In d (drop_first x l).
Proof.
  induction l as [|y l IH]; simpl; [tauto|].
  intros [-> | Hin] Hne.
  - destruct (str_eqb x d) eqn:E; [|now left].
    apply str_eqb_eq in E. now elim Hne.
  - destruct (str_eqb x y); [assumption|]. right. now apply IH.
Qed.

Lemma filter_all {A} (f : A -> bool) (l : list A) :
  (forall a, In a l -> f a = true) -> filter f l = l.
Proof.
  induction l as [|a l IH]; simpl; intros H; [reflexivity|].
  rewrite (H a) by now left. f_equal. apply IH. intros b Hb. apply H.
  now right.
Qed.

Lemma drop_first_filter (x : str) (l : list str) :
  NoDup l -> drop_first x l = filter (fun d => negb (str_eqb x d)) l.
Proof.
  induction l as [|y l IH]; simpl; intros H; [reflexivity|].
  inversion H as [|? ? Hy Hnd]; subst.
  destruct (str_eqb x y) eqn:E; simpl.
  - apply str_eqb_eq in E. subst y. symmetry. apply filter_all.
    intros a Ha. apply negb_true_iff, str_eqb_neq. intros ->. contradiction.
  - f_equal. now apply IH.
Qed.

Lemma filter_filter {A} (f g : A -> bool) (l : list A) :
  filter g (filter f l) = filter (fun a => f a && g a) l.
Proof.
  induction l as [|a l IH]; simpl; [reflexivity|].
  destruct (f a); simpl; [|exact IH]. destruct (g a); now rewrite IH.
Qed.

End PruneFacts.

(** X9. The two guarded removes of lines 6 to 9 never raise, and they
    take out one occurrence of node_modules and one of .next, when
    there is one, and nothing else: every other name is left as often
    as it was listed. *)
Theorem X9_removes_take_one_of_each :
  forall dirs,
    exists left,
      Script.prune dirs = Some left /\
      forall d,
        count_occ str_dec left d =
        count_occ str_dec dirs d - (if mem d Script.ignored then 1 else 0).
Proof.
  intros dirs. exists (script_pr dirs). split; [apply prune_total|].
  intros d. unfold script_pr. rewrite !drop_first_count.
  unfold mem, Script.ignored. cbn [existsb].
  rewrite (str_eqb_sym d (lit "node_modules")), (str_eqb_sym d (lit ".next")).
  destruct (str_eqb (lit "node_modules") d) eqn:E1;
    destruct (str_eqb (lit ".next") d) eqn:E2; simpl; try lia.
  apply str_eqb_eq in E1, E2. subst d. discriminate.
Qed.

(** X10. On a listing without repeated names, as a directory gives it,
    lines 6 to 9 leave exactly the names other than node_modules and
    .next, in their order. A repeated name would be removed once only. *)
Theorem X10_removes_filter_a_listing :
  forall dirs,
    NoDup dirs ->
    Script.prune dirs = Some (filter kept dirs).
Proof.
  intros dirs H. rewrite prune_total. f_equal. unfold script_pr.
  rewrite (drop_first_filter (lit ".next")) by now apply drop_first_NoDup.
  rewrite (drop_first_filter (lit "node_modules")) by assumption.
  rewrite filter_filter. apply filter_ext. intros d.
  unfold kept, mem, Script.ignored. cbn [existsb].
  rewrite (str_eqb_sym d (lit "node_modules")), (str_eqb_sym d (lit ".next")).
  destruct (str_eqb (lit "node_modules") d), (str_eqb (lit ".next") d);
    reflexivity.
Qed.

Lemma X10_witness :
  Script.prune [lit "src"; lit "node_modules"; lit "app"; lit ".next"] =
    Some (filter kept [lit "src"; lit "node_modules"; lit "app"; lit ".next"]) /\
  Script.prune doubled = Some [lit "src"; lit "node_modules"].
Proof.
  split; [|reflexivity].
  apply (X10_removes_filter_a_listing
           [lit "src"; lit "node_modules"; lit "app"; lit ".next"]).
  repeat constructor; simpl; intuition discriminate.
Defined.

(** X11. Whatever line 11 of search_deep.py leaves in [dirs], lines 6 to
    9 of search_script.py leave as well: search_deep ignores the two
    names of search_files and two more. *)
Theorem X11_deep_descends_nowhere_new :
  forall dirs,
    exists left,
      Script.prune dirs = Some left /\ incl (Deep.prune dirs) left.
Proof.
  intros dirs. exists (script_pr dirs). split; [apply prune_total|].
  intros d Hd. unfold Deep.prune in Hd. apply filter_In in Hd.
  destruct Hd as [Hin Hk]. apply negb_true_iff, mem_not_In in Hk.
  unfold script_pr. apply drop_first_keeps; [apply drop_first_keeps|].
  - assumption.
  - intros ->. apply Hk. now left.
  - intros ->. apply Hk. right. now left.
Qed.

(** ** search_deep: previews and line records *)

Section PreviewFacts.

Lemma lstrip_spec (s : str) :
  exists pre, s = pre ++ lstrip s /\ forallb isspace pre = true.
Proof.
  induction s as [|c s IH]; [now exists []|]. cbn [lstrip].
  destruct (isspace c) eqn:E.
  - destruct IH as (pre & Hs & Hp). exists (c :: pre). split.
    + simpl. now rewrite <- Hs.
    + simpl. now rewrite E, Hp.
  - now exists [].
Qed.

Lemma lstrip_head (s : str) (c : N) (rest : str) :
  lstrip s = c :: rest -> isspace c = false.
Proof.
  induction s as [|x s IH]; [discriminate|]. cbn [lstrip].
  destruct (isspace x) eqn:E; [exact IH|]. now intros [= <- _].
Qed.

Lemma strip_spec (s : str) :
  exists pre post,
    s = pre ++ strip s ++ post /\
    forallb isspace pre = true /\ forallb isspace post = true.
Proof.
  unfold strip. destruct (lstrip_spec s) as (pre & Hs & Hp).
  destruct (lstrip_spec (rev (lstrip s))) as (pre2 & Hr & Hp2).
  exists pre, (rev pre2). split; [|split; [assumption|]].
  - rewrite <- rev_app_distr, <- Hr, rev_involutive. exact Hs.
  - rewrite forallb_forall in *. intros x Hx. apply Hp2. now apply in_rev.
Qed.

Lemma strip_head (s : str) (c : N) (rest : str) :
  strip s = c :: rest -> isspace c = false.
Proof.
  intros E. unfold strip in E.
  destruct (lstrip_spec (rev (lstrip s))) as (pre2 & Hr & _).
  apply (f_equal (@rev N)) in Hr.
  rewrite rev_involutive, rev_app_distr, E in Hr. simpl in Hr.
  exact (lstrip_head s c _ Hr).
Qed.

Lemma strip_last (s : str) (c : N) (rest : str) :
  rev (strip s) = c :: rest -> isspace c = false.
Proof.
  unfold strip. rewrite rev_involutive. apply lstrip_head.
Qed.

End PreviewFacts.

(** X12. The preview of line 27 has at most 100 characters, is a piece
    of the line as it stands, and does not begin with white space; when
    the stripped line has at most 100 characters the preview is the
    stripped line and does not end with white space either. *)
Theorem X12_preview_is_a_short_piece_of_the_line :
  forall line,
    List.length (Deep.preview line) <= 100 /\
    (exists pre post, line = pre ++ Deep.preview line ++ post) /\
    (forall c rest, Deep.preview line = c :: rest -> isspace c = false) /\
    (List.length (strip line) <= 100 ->
     Deep.preview line = strip line /\
     forall c rest, rev (Deep.preview line) = c :: rest -> isspace c = false).
Proof.
  intros line. unfold Deep.preview. split; [|split; [|split]].
  - apply firstn_le_length.
  - destruct (strip_spec line) as (pre & post & E & _).
    exists pre, (skipn 100 (strip line) ++ post).
    rewrite (app_assoc (firstn 100 (strip line))), firstn_skipn. exact E.
  - intros c rest E. destruct (strip line) as [|x s] eqn:S; [discriminate|].
    cbn [firstn] in E. injection E as <- _.
    exact (strip_head line x s S).
  - intros Hlen. rewrite firstn_all2 by assumption. split; [reflexivity|].
    apply strip_last.
Qed.

Section LineHitFacts.

Variable term : str.

Lemma line_hits_from (lines : list str) :
  forall i n p,
    In (LineHit n p)
       (flat_map (fun il => if contains term (snd il)
                            then [LineHit (S (fst il)) (Deep.preview (snd il))]
                            else [])
                 (enumerate_from i lines)) <->
    exists k line,
      n = S (i + k) /\ nth_error lines k = Some line /\
      contains term line = true /\ p = Deep.preview line.
Proof.
  induction lines as [|l lines IH]; intros i n p.
  - simpl. split; [intros [] | intros (k & line & _ & H & _)].
    destruct k; discriminate.
  - cbn [enumerate_from flat_map]. rewrite in_app_iff, IH. cbn [fst snd].
    split.
    + intros [H | (k & line & -> & Hk & C & ->)].
      * destruct (contains term l) eqn:C; [|contradiction].
        destruct H as [H | []]. injection H as <- <-.
        exists 0, l. rewrite Nat.add_0_r. auto.
      * exists (S k), line. rewrite Nat.add_succ_r. auto.
    + intros (k & line & -> & Hk & C & ->). destruct k as [|k].
      * left. simpl in Hk. injection Hk as ->. rewrite C.
        rewrite Nat.add_0_r. now left.
      * right. exists k, line. rewrite Nat.add_succ_r. auto.
Qed.

Lemma line_hits_length (lines : list str) :
  forall i,
    List.length
      (flat_map (fun il => if contains term (snd il)
                           then [LineHit (S (fst il)) (Deep.preview (snd il))]
                           else [])
                (enumerate_from i lines)) =
    List.length (filter (contains term) lines).
Proof.
  induction lines as [|l lines IH]; intros i; [reflexivity|].
  cbn [enumerate_from flat_map filter snd]. rewrite length_app, IH.
  now destruct (contains term l).
Qed.

End LineHitFacts.

Section SplitFacts.

Lemma splitlines_from_unbroken (n : nat) :
  forall s cur line,
    List.length s <= n -> unbroken cur = true ->
    In line (splitlines_from cur s) -> unbroken line = true.
Proof.
  induction n as [|n IH]; intros s cur line Hn Hcur Hin.
  - destruct s; [|simpl in Hn; lia]. simpl in Hin.
    destruct cur; [contradiction|]. destruct Hin as [<- | []].
    unfold unbroken in *. rewrite forallb_forall in *.
    intros x Hx. apply Hcur. now apply in_rev.
  - assert (Rev : unbroken (rev cur) = true).
    { unfold unbroken in *. rewrite forallb_forall in *.
      intros x Hx. apply Hcur. now apply in_rev. }
    destruct s as [|c s'].
    + simpl in Hin. destruct cur; [contradiction|].
      now destruct Hin as [<- | []].
    + simpl in Hn. cbn [splitlines_from] in Hin.
      assert (Cut : forall rest, List.length rest <= n ->
                In line (rev cur :: splitlines_from [] rest) ->
                unbroken line = true).
      { intros rest Hr [<- | H]; [exact Rev|].
        now apply (IH rest [] line Hr). }
      destruct (N.eqb c 13).
      * destruct s' as [|c' s'']; [apply (Cut []); simpl; auto; lia|].
        destruct c' as [|p]; [apply (Cut (0%N :: s'')); simpl in *; auto; lia|].
        do 4 (destruct p as [p|p|];
              try (eapply Cut; [|exact Hin]; simpl in *; lia)).
      * destruct (is_linebreak c) eqn:B; [apply (Cut s'); auto; lia|].
        apply (IH s' (c :: cur) line); [lia| |exact Hin].
        unfold unbroken in *. simpl. now rewrite B, Hcur.
Qed.

Lemma startswith_cut (t a b : str) (c : N) :
  startswith t (a ++ c :: b) = true -> ~ In c t -> startswith t a = true.
Proof.
  revert a. induction t as [|y t IH]; intros a H Hc; [reflexivity|].
  destruct a as [|x a]; simpl in H |- *.
  - apply andb_true_iff in H. destruct H as [H _]. apply N.eqb_eq in H.
    subst. elim Hc. now left.
  - apply andb_true_iff in H. destruct H as [-> H]. simpl.
    apply IH; [assumption|]. intros Hin. apply Hc. now right.
Qed.

Lemma contains_cut (t a b : str) (c : N) :
  contains t (a ++ c :: b) = true -> ~ In c t ->
  contains t a = true \/ contains t b = true.
Proof.
  intros H Hc. induction a as [|x a IH].
  - cbn [app contains] in H. apply orb_true_iff in H.
    destruct H as [H | H]; [|now right].
    left. pose proof (startswith_cut t [] b c H Hc) as S.
    destruct t; [reflexivity | discriminate].
  - change ((x :: a) ++ c :: b) with (x :: a ++ c :: b) in H.
    cbn [contains] in H. apply orb_true_iff in H. destruct H as [H | H].
    + left. cbn [contains].
      now rewrite (startswith_cut t (x :: a) b c H Hc).
    + destruct (IH H) as [H1 | H1]; [|now right].
      left. cbn [contains]. rewrite H1. apply orb_true_r.
Qed.

Lemma unbroken_not_In (t : str) (c : N) :
  unbroken t = true -> is_linebreak c = true -> ~ In c t.
Proof.
  unfold unbroken. rewrite forallb_forall. intros H B Hin.
  specialize (H c Hin). now rewrite B in H.
Qed.

(** A term without line breaks that is in the text is in one of its
    lines. *)
Lemma splitlines_from_finds (t : str) (n : nat) :
  t <> [] -> unbroken t = true ->
  forall s cur,
    List.length s <= n ->
    contains t (rev cur ++ s) = true ->
    exists line, In line (splitlines_from cur s) /\ contains t line = true.
Proof.
  intros Hne Hu.
  assert (Empty : contains t [] = false)
    by (destruct t; [now elim Hne | reflexivity]).
  induction n as [|n IH]; intros s cur Hn C.
  - destruct s; [|simpl in Hn; lia]. rewrite app_nil_r in C. simpl.
    destruct cur as [|x cur];
      [change (contains t [] = true) in C; congruence|].
    exists (rev (x :: cur)). split; [now left | assumption].
  - destruct s as [|c s'].
    + rewrite app_nil_r in C. simpl.
      destruct cur as [|x cur];
      [change (contains t [] = true) in C; congruence|].
      exists (rev (x :: cur)). split; [now left | assumption].
    + simpl in Hn. cbn [splitlines_from].
      assert (Cut : forall rest, List.length rest <= n ->
                contains t (rev cur) = true \/ contains t rest = true ->
                exists line,
                  In line (rev cur :: splitlines_from [] rest) /\
                  contains t line = true).
      { intros rest Hr [H | H].
        - exists (rev cur). split; [now left | assumption].
        - destruct (IH rest [] Hr H) as (line & Hl & Hc).
          exists line. split; [now right | assumption]. }
      destruct (N.eqb c 13) eqn:E.
      * apply N.eqb_eq in E. subst c.
        assert (C1 : contains t (rev cur) = true \/ contains t s' = true)
          by (apply (contains_cut t (rev cur) s' 13%N C);
              now apply unbroken_not_In).
        destruct s' as [|c' s'']; [apply Cut; [simpl; lia | exact C1]|].
        assert (C2 : c' = 10%N ->
                  contains t (rev cur) = true \/ contains t s'' = true).
        { intros ->. destruct C1 as [H | H]; [now left|].
          destruct (contains_cut t [] s'' 10%N H) as [H1 | H1];
            [now apply unbroken_not_In | congruence | now right]. }
        destruct c' as [|p]; [apply Cut; [simpl in *; lia | exact C1]|].
        do 4 (destruct p as [p|p|];
              try (apply Cut; [simpl in *; lia | exact C1])).
        apply Cut; [simpl in *; lia | now apply C2].
      * destruct (is_linebreak c) eqn:B.
        -- apply Cut; [lia|].
           apply (contains_cut t (rev cur) s' c C).
           now apply unbroken_not_In.
        -- apply (IH s' (c :: cur)); [lia|].
           simpl rev. now rewrite <- app_assoc.
Qed.

End SplitFacts.

Section BlockRecords.

Lemma line_total_member (term line : str) (lines : list str) :
  In line lines -> occurrences term line <= line_total term lines.
Proof.
  unfold line_total. induction lines as [|l lines IH]; [intros []|].
  simpl. intros [-> | H]; [lia|]. specialize (IH H). lia.
Qed.

(** A term found in a line of a text is found in the text. *)
Lemma line_contains (term content line : str) :
  In line (splitlines content) -> contains term line = true ->
  contains term content = true.
Proof.
  intros Hin C. apply occurrences_contains in C. apply occurrences_contains.
  pose proof (line_total_member term line _ Hin).
  pose proof (splitlines_total term content). lia.
Qed.

Lemma splitlines_unbroken (content line : str) :
  In line (splitlines content) -> unbroken line = true.
Proof.
  apply (splitlines_from_unbroken (List.length content) content []);
    [apply le_n | reflexivity].
Qed.

Lemma file_level_of_block (path content : str) (terms : list str) :
  filter is_file_level (flat_map (Deep.term_block path content) terms) =
  map (fun t => MatchIn t path) (filter (fun t => contains t content) terms).
Proof.
  induction terms as [|t terms IH]; [reflexivity|].
  cbn [flat_map filter]. rewrite filter_app, IH. unfold Deep.term_block.
  destruct (contains t content); [|reflexivity].
  cbn [filter is_file_level map app]. f_equal.
  assert (E : forall lines i,
    filter is_file_level
      (flat_map (fun il => if contains t (snd il)
                           then [LineHit (S (fst il)) (Deep.preview (snd il))]
                           else [])
                (enumerate_from i lines)) = []).
  { induction lines as [|l lines IHl]; intros i; [reflexivity|].
    cbn [enumerate_from flat_map snd fst]. rewrite filter_app, IHl.
    now destruct (contains t l). }
  unfold Deep.line_hits. now rewrite E.
Qed.

End BlockRecords.

(** X13. The line records that lines 24 to 27 print for a term are
    exactly the lines of the text that hold the term: record [n] is
    printed with the preview of line [n], counted from 1, when that line
    holds the term, there is one record for each such line, and a line
    holds no line break. *)
Theorem X13_line_records_are_the_lines_with_the_term :
  forall path content term,
    (forall n p,
       In (LineHit n p) (Deep.term_block path content term) <->
       exists k line,
         n = S k /\ nth_error (splitlines content) k = Some line /\
         contains term line = true /\ p = Deep.preview line) /\
    List.length (filter is_line_level (Deep.term_block path content term)) =
      List.length (filter (contains term) (splitlines content)) /\
    (forall line, In line (splitlines content) -> unbroken line = true).
Proof.
  intros path content term. split; [|split].
  - intros n p. unfold Deep.term_block.
    pose proof (line_hits_from term (splitlines content) 0 n p) as H.
    cbn [Nat.add] in H. fold (Deep.line_hits term (splitlines content)) in H.
    destruct (contains term content) eqn:C.
    + rewrite <- H. split; [intros [E | E]; [discriminate | exact E]|].
      intros E. now right.
    + split; [intros []|].
      intros (k & line & _ & Hk & Hc & _).
      apply nth_error_In in Hk.
      rewrite (line_contains term content line Hk Hc) in C. discriminate.
  - unfold Deep.term_block. destruct (contains term content) eqn:C.
    + cbn [filter is_line_level]. unfold Deep.line_hits.
      rewrite <- (line_hits_length term (splitlines content) 0).
      f_equal. apply filter_all. intros o Ho. apply in_flat_map in Ho.
      destruct Ho as ([i l] & _ & Ho). cbn [snd fst] in Ho.
      destruct (contains term l); [|contradiction].
      now destruct Ho as [<- | []].
    + simpl. symmetry. apply length_zero_iff_nil.
      destruct (nil_or_In (filter (contains term) (splitlines content)))
        as [E | (l & Hl)]; [exact E|].
      apply filter_In in Hl. destruct Hl as [Hl Hc].
      rewrite (line_contains term content l Hl Hc) in C. discriminate.
  - apply splitlines_unbroken.
Qed.

(** X14. A term that is not empty and holds no line break is never
    reported for a file without a line: when lines 22 and 23 print
    MATCH, lines 25 to 27 print at least one line record. The five
    search terms are of this kind. A term with a line break inside can
    give MATCH and no line record. *)
Theorem X14_match_comes_with_a_line :
  forall path content term,
    term <> [] ->
    unbroken term = true ->
    contains term content = true ->
    (exists n p, In (LineHit n p) (Deep.term_block path content term)) /\
    forallb (fun t => unbroken t && negb (str_eqb t [])) Deep.search_terms = true.
Proof.
  intros path content term Hne Hu C. split; [|reflexivity].
  destruct (splitlines_from_finds term (List.length content) Hne Hu
              content [] (le_n _) C) as (line & Hin & Hc).
  apply In_nth_error in Hin. destruct Hin as (k & Hk).
  exists (S k), (Deep.preview line).
  unfold Deep.term_block. rewrite C. right.
  apply (line_hits_from term (splitlines content) 0).
  now exists k, line.
Qed.

Lemma X14_witness :
  (exists n p,
     In (LineHit n p)
        (Deep.term_block (lit "./a/b.tsx")
           (lit "// page" ++ 10%N :: 10%N :: import_line ++ [10%N])
           (lit "next/document"))) /\
  Deep.term_block (lit "p") (lit "a" ++ 10%N :: lit "b")
                  (lit "a" ++ 10%N :: lit "b") =
  [MatchIn (lit "a" ++ 10%N :: lit "b") (lit "p")].
Proof.
  split; [|reflexivity].
  apply (X14_match_comes_with_a_line
           (lit "./a/b.tsx")
           (lit "// page" ++ 10%N :: 10%N :: import_line ++ [10%N])
           (lit "next/document")); [discriminate | reflexivity | reflexivity].
Defined.

(** X15. For a file that can be read, the MATCH lines of lines 21 to 23
    are one line for each search term that the text holds, in the order
    of search_terms: at most five, and no term twice. *)
Theorem X15_one_match_line_per_term :
  forall root file resolve text,
    open_read Ignore (resolve file) = inr text ->
    filter is_file_level (stdout (Deep.file_block root file resolve start)) =
      map (fun t => MatchIn t (path_join root file))
          (filter (fun t => contains t text) Deep.search_terms) /\
    List.length
      (filter is_file_level (stdout (Deep.file_block root file resolve start)))
      <= 5.
Proof.
  intros root file resolve text R.
  rewrite (file_block_read root file resolve start text R).
  cbn [extend stdout start app]. rewrite file_level_of_block.
  split; [reflexivity|]. rewrite length_map.
  apply (Nat.le_trans _ _ _ (filter_length_le _ _)). apply le_n.
Qed.

Lemma X15_witness :
  filter is_file_level
    (stdout (Deep.file_block (lit "./a") (lit "b.tsx")
               (lookup [(lit "b.tsx", File b_tsx)]) start)) =
  map (fun t => MatchIn t (path_join (lit "./a") (lit "b.tsx")))
      (filter (fun t => contains t
                 (lit "// page" ++ 10%N :: 10%N :: import_line ++ [10%N]))
              Deep.search_terms).
Proof.
  apply (X15_one_match_line_per_term
           (lit "./a") (lit "b.tsx") (lookup [(lit "b.tsx", File b_tsx)])
           (lit "// page" ++ 10%N :: 10%N :: import_line ++ [10%N])).
  reflexivity.
Defined.

(** X8. On a file that search_files admits and decodes, the two scripts
    agree term by term: for each of the search terms of search_deep.py,
    search_files returns the path of the file exactly when the block of
    lines 17 to 27 of search_deep.py prints MATCH for that term and
    file. *)
Theorem X8_scripts_agree_on_a_file :
  forall directory fs w ds name f content root resolve t,
    wf fs = true ->
    locate fs (ds ++ [name]) = Some (File f) ->
    Script.admits name = true ->
    clear_of Script.ignored ds = true ->
    open_read Strict (Some (File f)) = inr content ->
    resolve name = Some (File f) ->
    In t Deep.search_terms ->
    exists results w',
      Script.search_files directory fs t w = Ok results w' /\
      (In (joins directory (ds ++ [name])) results <->
       In (MatchIn t (path_join root name))
          (stdout (Deep.file_block root name resolve start))).
Proof.
  intros directory fs w ds name f content root resolve t W L Ha Hc R Hr Ht.
  rewrite search_files_runs. do 2 eexists. split; [reflexivity|].
  rewrite (found_iff directory fs t ds name f W L).
  assert (Ri : open_read Ignore (resolve name) = inr content).
  { rewrite Hr. unfold open_read, utf8_decode in *.
    destruct (readable f); [|discriminate].
    destruct (decode_from Strict None (map Byte.to_N (data f))) as [s|] eqn:D;
      [|discriminate].
    now rewrite (decode_strict_ignore _ None s D). }
  rewrite (file_block_read root name resolve start content Ri).
  cbn [extend stdout start app]. rewrite in_flat_map. split.
  - intros (_ & _ & content' & R' & C).
    assert (content' = content) by congruence. subst content'.
    exists t. split; [assumption|]. unfold Deep.term_block. rewrite C.
    now left.
  - intros (t' & _ & H). unfold Deep.term_block in H.
    destruct (contains t' content) eqn:C; [|contradiction].
    destruct H as [H | H]; [|now apply line_hits_no_match in H].
    injection H as ->. repeat split; try assumption. now exists content.
Qed.

Lemma X8_witness :
  exists results w',
    Script.search_files (lit ".") sample (lit "<Html") start = Ok results w' /\
    (In (joins (lit ".") ([lit "a"] ++ [lit "b.tsx"])) results <->
     In (MatchIn (lit "<Html") (path_join (lit "./a") (lit "b.tsx")))
        (stdout (Deep.file_block (lit "./a") (lit "b.tsx")
                   (lookup [(lit "b.tsx", File b_tsx)]) start))).
Proof.
  apply (X8_scripts_agree_on_a_file
           (lit ".") sample start [lit "a"] (lit "b.tsx") b_tsx
           (lit "// page" ++ 10%N :: 10%N :: import_line ++ [10%N])
           (lit "./a") (lookup [(lit "b.tsx", File b_tsx)]) (lit "<Html"));
    try reflexivity.
  right. now left.
Defined.

(** X1. A run of search_script.py walks the tree twice, once for each
    term. It prints the first banner, a "Could not read" line for every
    admitted file that cannot be read, a "Found in" line for every match
    of next/document in the order of the walk, then the second banner,
    the same "Could not read" lines again, and a "Found in" line for
    every match of <Html; then it exits normally. *)
Theorem X1_what_search_script_prints :
  forall fs w,
    Script.main fs w =
    Exit0
      (extend w
         (script_events (lit ".") fs ++ script_events (lit ".") fs)
         (Say (lit "Searching for 'next/document'...") ::
          complaints (script_events (lit ".") fs) ++
          map FoundIn (hits (lit "next/document") (script_events (lit ".") fs)) ++
          Say (10%N :: lit "Searching for '<Html'...") ::
          complaints (script_events (lit ".") fs) ++
          map FoundIn (hits (lit "<Html") (script_events (lit ".") fs)))).
Proof.
  intros fs w. unfold Script.main, run_module. rewrite script_layout_ok.
  unfold Script.body. rewrite search_files_runs.
  cbv beta iota zeta. rewrite search_files_runs.
  rewrite !report_extend, !print_extend, !extend_extend.
  f_equal. f_equal; simpl; rewrite ?app_nil_r, <- ?app_assoc; reflexivity.
Qed.

(** ** search_files: how a call is built from the calls on subtrees *)

Section ComposeFacts.

Lemma hits_render (term top : str) (p : list item) :
  hits term (map (render Strict top) p) =
  map (joins top) (found_chains term p).
Proof.
  induction p as [|[c | c n] p IH]; [reflexivity | exact IH|].
  cbn [map]. change (?x :: ?l) with ([x] ++ l) at 1.
  rewrite hits_app, IH. unfold found_chains at 2. cbn [flat_map].
  rewrite map_app. f_equal. cbn [render hits flat_map].
  destruct (open_read Strict n) as [e | content]; [reflexivity|].
  now destruct (contains term content).
Qed.

Lemma found_chains_In (term : str) (p : list item) (c : list str) :
  In c (found_chains term p) -> exists n, In (Opened c n) p.
Proof.
  unfold found_chains. rewrite in_flat_map.
  intros ([c' | c' n] & Hi & Hc); [contradiction|].
  destruct (open_read Strict n) as [e | content]; [contradiction|].
  destruct (contains term content); [|contradiction].
  destruct Hc as [-> | []]. now exists n.
Qed.

Lemma decode_ascii (bs : list byte) :
  ascii_only bs = true ->
  forall mode,
    decode_from mode None (map Byte.to_N bs) = Some (map Byte.to_N bs).
Proof.
  unfold ascii_only.
  induction bs as [|b bs IH]; intros H mode; [reflexivity|].
  cbn [forallb] in H. apply andb_true_iff in H. destruct H as [Hb H].
  cbn [map decode_from]. unfold classify.
  assert (E : (Byte.to_N b <=? 0x7F)%N = true).
  { apply N.leb_le. apply N.ltb_lt in Hb. lia. }
  rewrite E. now rewrite (IH H mode).
Qed.

End ComposeFacts.

(** X16. A call of search_files on a directory returns the matches
    among the files of the directory, in listing order, followed by
    what search_files returns on each subdirectory that lines 6 to 9
    leave in [dirs], in listing order and with the joined path as
    directory argument. On something that is not a directory that can
    be listed it returns the empty list and does nothing. *)
Theorem X16_search_files_by_subtrees :
  forall top term w,
    (forall es,
       exists left,
         Script.prune (dirnames es) = Some left /\
         result_of (Script.search_files top (Dir es) term w) =
         flat_map
           (fun f =>
              if Script.admits f then
                match open_read Strict (lookup es f) with
                | inr content =>
                    if contains term content then [path_join top f] else []
                | inl _ => []
                end
              else [])
           (filenames es) ++
         flat_map
           (fun d =>
              match lookup es d with
              | Some t' =>
                  result_of
                    (Script.search_files (path_join top d) t' term start)
              | None => []
              end)
           left) /\
    (forall t, is_file t = true \/ t = Opaque ->
       Script.search_files top t term w = Ok [] w).
Proof.
  intros top term w. split.
  - intros es. exists (script_pr (dirnames es)).
    split; [apply prune_total|].
    rewrite search_files_runs. cbn [result_of].
    change (hits term (script_events top (Dir es)))
      with (found term top (Dir es)).
    rewrite found_Dir. f_equal.
    + apply flat_map_ext. intros f. destruct (Script.admits f); [|reflexivity].
      cbn [hits flat_map].
      destruct (open_read Strict (lookup es f)) as [e | content];
        [reflexivity|].
      destruct (contains term content); reflexivity.
    + apply flat_map_ext. intros d. destruct (lookup es d); [|reflexivity].
      now rewrite search_files_runs.
  - intros t [H | ->]; [|reflexivity].
    destruct t; try discriminate. reflexivity.
Qed.

(** X17. A readable file of ASCII bytes is never skipped for its
    encoding: both scripts read it as its bytes, with CR LF and CR
    turned into LF. *)
Theorem X17_ascii_files_are_read :
  forall f mode,
    readable f = true ->
    ascii_only (data f) = true ->
    open_read mode (Some (File f)) =
    inr (universal_newlines (map Byte.to_N (data f))).
Proof.
  intros f mode R A. unfold open_read, utf8_decode. rewrite R.
  now rewrite decode_ascii.
Qed.

Lemma X17_witness :
  open_read Strict (Some (File crlf_ts)) = inr (lit "a" ++ 10%N :: lit "b").
Proof.
  apply (X17_ascii_files_are_read crlf_ts Strict); reflexivity.
Defined.

(** X18. The directory argument of search_files only changes the front
    of the returned paths: the files found are the same for every
    argument, and each path is the argument joined with the chain of
    names that leads to the file. On a tree of proper names that path is
    the argument, a slash unless the argument is empty or ends in one,
    and the names of the chain with slashes between them. *)
Theorem X18_directory_argument_is_a_prefix :
  forall fs term,
    (forall directory w,
       exists w',
         Script.search_files directory fs term w =
         Ok (map (joins directory) (found_chains term (script_plan fs))) w') /\
    (wf fs = true ->
     forall chain, In chain (found_chains term (script_plan fs)) ->
       exists name rest,
         chain = name :: rest /\
         forall directory,
           joins directory chain =
           directory ++ sep directory ++ name ++ tail_of rest).
Proof.
  intros fs term. split.
  - intros directory w. rewrite search_files_runs. eexists. f_equal.
    apply hits_render.
  - intros W chain Hc. apply found_chains_In in Hc. destruct Hc as (n & Hi).
    destruct (script_sound fs W _ Hi) as (ds & name & f & -> & _ & L & _).
    pose proof (locate_names_ok _ fs _ W L) as Hok.
    destruct (ds ++ [name]) as [|c rest] eqn:E.
    + destruct ds; discriminate.
    + exists c, rest. split; [reflexivity|]. intros directory.
      simpl in Hok. apply andb_true_iff in Hok. destruct Hok as [H1 H2].
      now apply joins_cons.
Qed.

Lemma X18_witness :
  exists name rest,
    [lit "a"; lit "b.tsx"] = name :: rest /\
    forall directory,
      joins directory [lit "a"; lit "b.tsx"] =
      directory ++ sep directory ++ name ++ tail_of rest.
Proof.
  apply (proj2 (X18_directory_argument_is_a_prefix sample (lit "next/document"))).
  - reflexivity.
  - left. reflexivity.
Defined.


